(** * Autonomous food system: cooking sessions and consumption profiles

    A shallow embedding of two classes of the backend:

    - [CookingSession] (src/backend/routes/cooking.js), the session
      life cycle with its step timing;
    - [ConsumptionProfile] (src/backend/models/ConsumptionProfile.js), the
      served-versus-consumed bookkeeping with its rolling waste window and
      its portion adjustments.

    Every method becomes a function on an explicit state record.  A method
    that can throw returns a [Completion] next to the state it leaves
    behind.  Clock readings ([Date.now()], [new Date()]) are arguments. *)

From Stdlib Require Import QArith Qround Lqa ZArith Lia.
From stdpp Require Import gmap strings list fin_maps sorting.

Local Open Scope string_scope.
Local Open Scope list_scope.
Local Open Scope nat_scope.

(** ** JavaScript values shared by the two classes *)

(** An [Error] object: the class name and the message. *)
Record JSError := mkError { errName : string; errMessage : string }.

(** How a method call ends: with a value, or with a thrown error. *)
Inductive Completion (A : Type) : Type :=
| Normal (a : A)
| Throw (e : JSError).
Arguments Normal {A} a.
Arguments Throw {A} e.

Definition isThrow {A} (c : Completion A) : bool :=
  match c with Throw _ => true | Normal _ => false end.

(** A JavaScript array of objects.  A slot holds [None] when it is a hole;
    reading a hole or past the end gives [undefined]. *)
Definition array_get {A} (l : list (option A)) (i : nat) : option A :=
  mjoin (l !! i).

(** [arr[i] = v]: in range the slot is replaced, out of range the array
    grows, with holes up to [i]. *)
Definition array_set {A} (l : list (option A)) (i : nat) (v : A)
  : list (option A) :=
  if decide (i < length l) then <[i := Some v]> l
  else l ++ replicate (i - length l) None ++ [Some v].

(** ** Numbers

    A JavaScript number is an IEEE-754 double.  The model keeps the special
    values and their arithmetic, and takes finite results as exact
    rationals: rounding and overflow of finite values are left out, and so
    is the sign of zero (every zero divides like [+0]). *)
Module JSNumber.
Local Open Scope Q_scope.

Inductive number : Type :=
| Fin (q : Q)
| PosInf
| NegInf
| NaN.

Definition isFinite (n : number) : bool :=
  match n with Fin _ => true | _ => false end.

Definition neg (n : number) : number :=
  match n with
  | Fin q => Fin (- q)
  | PosInf => NegInf
  | NegInf => PosInf
  | NaN => NaN
  end.

Definition add (a b : number) : number :=
  match a, b with
  | NaN, _ | _, NaN => NaN
  | Fin x, Fin y => Fin (x + y)
  | PosInf, NegInf | NegInf, PosInf => NaN
  | PosInf, _ | _, PosInf => PosInf
  | NegInf, _ | _, NegInf => NegInf
  end.

Definition sub (a b : number) : number := add a (neg b).

(** An infinity scaled by a finite factor. *)
Definition scale_inf (inf : number) (x : Q) : number :=
  match x ?= 0 with
  | Eq => NaN
  | Gt => inf
  | Lt => neg inf
  end.

Definition mul (a b : number) : number :=
  match a, b with
  | NaN, _ | _, NaN => NaN
  | Fin x, Fin y => Fin (x * y)
  | Fin x, inf => scale_inf inf x
  | inf, Fin x => scale_inf inf x
  | PosInf, PosInf | NegInf, NegInf => PosInf
  | PosInf, NegInf | NegInf, PosInf => NegInf
  end.

Definition div (a b : number) : number :=
  match a, b with
  | NaN, _ | _, NaN => NaN
  | Fin x, Fin y =>
      if Qeq_bool y 0 then
        match x ?= 0 with
        | Eq => NaN
        | Gt => PosInf
        | Lt => NegInf
        end
      else Fin (x / y)
  | Fin _, _ => Fin 0
  | inf, Fin y => match y ?= 0 with Lt => neg inf | _ => inf end
  | _, _ => NaN
  end.

(** [a > b] and [a >= b]; a comparison with [NaN] is false. *)
Definition gt (a b : number) : bool :=
  match a, b with
  | NaN, _ | _, NaN => false
  | Fin x, Fin y => match x ?= y with Gt => true | _ => false end
  | PosInf, PosInf => false
  | PosInf, _ => true
  | _, NegInf => match a with NegInf => false | _ => true end
  | _, _ => false
  end.

Definition ge (a b : number) : bool :=
  match a, b with
  | NaN, _ | _, NaN => false
  | Fin x, Fin y => match x ?= y with Lt => false | _ => true end
  | PosInf, _ => true
  | _, NegInf => true
  | _, _ => false
  end.

(** [Math.min] and [Math.max] of two arguments. *)
Definition min (a b : number) : number :=
  match a, b with
  | NaN, _ | _, NaN => NaN
  | _, _ => if gt a b then b else a
  end.

Definition max (a b : number) : number :=
  match a, b with
  | NaN, _ | _, NaN => NaN
  | _, _ => if gt b a then b else a
  end.

(** Truthiness: [0] and [NaN] are falsy. *)
Definition truthy (n : number) : bool :=
  match n with
  | Fin q => negb (Qeq_bool q 0)
  | NaN => false
  | _ => true
  end.

(** [a || d] on an [a] that may be [undefined]. *)
Definition or_default (a : option number) (d : number) : number :=
  match a with
  | Some n => if truthy n then n else d
  | None => d
  end.

Definition of_nat (n : nat) : number := Fin (inject_Z (Z.of_nat n)).
Definition of_Z (z : Z) : number := Fin (inject_Z z).

(** [arr.reduce((sum, x) => sum + x, 0)]. *)
Definition sum (l : list number) : number := foldl add (Fin 0) l.

Declare Scope number_scope.
Delimit Scope number_scope with num.
Bind Scope number_scope with number.
Infix "+" := add : number_scope.
Infix "-" := sub : number_scope.
Infix "*" := mul : number_scope.
Infix "/" := div : number_scope.

End JSNumber.

(** ** CookingSession (src/backend/routes/cooking.js)

    Times are milliseconds since the epoch, as [Date.now()] and the numeric
    value of a [Date] give them.  The calls to [logger] write to the log
    only and change no field of the session; they are left out. *)
Module Cooking.

Inductive Status : Type :=
| initialized
| in_progress
| paused
| completed
| aborted.

#[global] Instance Status_eq_dec : EqDecision Status.
Proof. solve_decision. Defined.

(** An entry of [recipe.instructions]; [timing] is in minutes and may be
    missing. *)
Record Instruction := mkInstruction {
  step : string;
  timing : option Z
}.

Record Recipe := mkRecipe {
  recipeName : string;
  instructions : list Instruction;
  recipeServings : Z
}.

(** An entry of [stepTimings].  A field is [None] while the object does
    not have it; [expectedDuration] is also [None] when it is [null]. *)
Record StepTiming := mkStepTiming {
  stepIndex : option nat;
  stepStartTime : option Z;
  expectedDuration : option Z;
  stepEndTime : option Z;
  actualDuration : option Z
}.

Record SensorReading := mkSensorReading {
  sensorType : string;
  sensorValue : Q;
  sensorTimestamp : Z;
  sensorStepIndex : nat
}.

Record QualityMetric := mkQualityMetric {
  metricValue : Q;
  metricTimestamp : Z;
  metricStepIndex : nat
}.

Record SessionError := mkSessionError {
  errorType : string;
  errorMessage : string;
  errorTimestamp : Z
}.

Record CookingSession := mkSession {
  id : string;
  recipeId : string;
  recipe : Recipe;
  servings : Z;
  automationLevel : string;
  status : Status;
  currentStep : nat;
  startTime : option Z;
  endTime : option Z;
  pausedTime : Z;
  stepTimings : list (option StepTiming);
  sensorData : list SensorReading;
  qualityMetrics : gmap string QualityMetric;
  notes : string;
  errors : list SessionError;
  createdAt : Z;
  updatedAt : Z
}.

(** The argument of the constructor.  The session id, which the source
    draws from the clock and [Math.random], is passed in. *)
Record SessionData := mkSessionData {
  dataId : string;
  dataRecipeId : string;
  dataRecipe : Recipe;
  dataServings : option Z;
  dataAutomationLevel : option string;
  dataNotes : option string
}.

(** Field assignments, [this.f = v]. *)
Section Setters.
Variable s : CookingSession.

Definition set_status (v : Status) : CookingSession :=
  mkSession (id s) (recipeId s) (recipe s) (servings s)
    (automationLevel s) v (currentStep s) (startTime s) (endTime s)
    (pausedTime s) (stepTimings s) (sensorData s) (qualityMetrics s)
    (notes s) (errors s) (createdAt s) (updatedAt s).

Definition set_currentStep (v : nat) : CookingSession :=
  mkSession (id s) (recipeId s) (recipe s) (servings s)
    (automationLevel s) (status s) v (startTime s) (endTime s)
    (pausedTime s) (stepTimings s) (sensorData s) (qualityMetrics s)
    (notes s) (errors s) (createdAt s) (updatedAt s).

Definition set_startTime (v : option Z) : CookingSession :=
  mkSession (id s) (recipeId s) (recipe s) (servings s)
    (automationLevel s) (status s) (currentStep s) v (endTime s)
    (pausedTime s) (stepTimings s) (sensorData s) (qualityMetrics s)
    (notes s) (errors s) (createdAt s) (updatedAt s).

Definition set_endTime (v : option Z) : CookingSession :=
  mkSession (id s) (recipeId s) (recipe s) (servings s)
    (automationLevel s) (status s) (currentStep s) (startTime s) v
    (pausedTime s) (stepTimings s) (sensorData s) (qualityMetrics s)
    (notes s) (errors s) (createdAt s) (updatedAt s).

Definition set_pausedTime (v : Z) : CookingSession :=
  mkSession (id s) (recipeId s) (recipe s) (servings s)
    (automationLevel s) (status s) (currentStep s) (startTime s)
    (endTime s) v (stepTimings s) (sensorData s) (qualityMetrics s)
    (notes s) (errors s) (createdAt s) (updatedAt s).

Definition set_stepTimings (v : list (option StepTiming))
  : CookingSession :=
  mkSession (id s) (recipeId s) (recipe s) (servings s)
    (automationLevel s) (status s) (currentStep s) (startTime s)
    (endTime s) (pausedTime s) v (sensorData s) (qualityMetrics s)
    (notes s) (errors s) (createdAt s) (updatedAt s).

Definition set_sensorData (v : list SensorReading) : CookingSession :=
  mkSession (id s) (recipeId s) (recipe s) (servings s)
    (automationLevel s) (status s) (currentStep s) (startTime s)
    (endTime s) (pausedTime s) (stepTimings s) v (qualityMetrics s)
    (notes s) (errors s) (createdAt s) (updatedAt s).

Definition set_qualityMetrics (v : gmap string QualityMetric)
  : CookingSession :=
  mkSession (id s) (recipeId s) (recipe s) (servings s)
    (automationLevel s) (status s) (currentStep s) (startTime s)
    (endTime s) (pausedTime s) (stepTimings s) (sensorData s) v
    (notes s) (errors s) (createdAt s) (updatedAt s).

Definition set_errors (v : list SessionError) : CookingSession :=
  mkSession (id s) (recipeId s) (recipe s) (servings s)
    (automationLevel s) (status s) (currentStep s) (startTime s)
    (endTime s) (pausedTime s) (stepTimings s) (sensorData s)
    (qualityMetrics s) (notes s) v (createdAt s) (updatedAt s).

Definition set_updatedAt (v : Z) : CookingSession :=
  mkSession (id s) (recipeId s) (recipe s) (servings s)
    (automationLevel s) (status s) (currentStep s) (startTime s)
    (endTime s) (pausedTime s) (stepTimings s) (sensorData s)
    (qualityMetrics s) (notes s) (errors s) (createdAt s) v.
End Setters.

(** [constructor(data)], called at time [now]. *)
Definition new (data : SessionData) (now : Z) : CookingSession :=
  {| id := dataId data;
     recipeId := dataRecipeId data;
     recipe := dataRecipe data;
     servings :=
       match dataServings data with
       | Some n => if (n =? 0)%Z then recipeServings (dataRecipe data)
                   else n
       | None => recipeServings (dataRecipe data)
       end;
     automationLevel :=
       match dataAutomationLevel data with
       | Some l => if decide (l = EmptyString) then "manual" else l
       | None => "manual"
       end;
     status := initialized;
     currentStep := 0;
     startTime := None;
     endTime := None;
     pausedTime := 0;
     stepTimings := [];
     sensorData := [];
     qualityMetrics := ∅;
     notes := default EmptyString (dataNotes data);
     errors := [];
     createdAt := now;
     updatedAt := now |}.

Definition CookingProcessError (msg : string) : JSError :=
  mkError "CookingProcessError" msg.

Definition start (now : Z) (s : CookingSession)
  : Completion unit * CookingSession :=
  if decide (status s ≠ initialized) then
    (Throw (CookingProcessError "Session already started or completed"), s)
  else
    (Normal (),
     set_updatedAt (set_startTime (set_status s in_progress) (Some now))
       now).

Definition pause (now : Z) (s : CookingSession)
  : Completion unit * CookingSession :=
  if decide (status s ≠ in_progress) then
    (Throw (CookingProcessError
              "Cannot pause session that is not in progress"), s)
  else
    (Normal (),
     set_updatedAt (set_pausedTime (set_status s paused) now) now).

Definition resume (now : Z) (s : CookingSession)
  : Completion unit * CookingSession :=
  if decide (status s ≠ paused) then
    (Throw (CookingProcessError
              "Cannot resume session that is not paused"), s)
  else
    (Normal (),
     set_updatedAt (set_pausedTime (set_status s in_progress) 0) now).

(** [calculateRemainingTime()]: the minutes of the instructions from
    [currentStep] on; a missing or zero [timing] adds nothing. *)
Definition calculateRemainingTime (s : CookingSession) : Z :=
  foldl (fun acc ins => (acc + default 0 (timing ins))%Z) 0%Z
    (drop (currentStep s) (instructions (recipe s))).

(** What [getCurrentStepInfo()] returns. *)
Record StepInfo := mkStepInfo {
  infoCurrentStep : nat;
  totalSteps : nat;
  currentInstruction : option Instruction;
  nextInstruction : option Instruction;
  progress : Q;
  estimatedTimeRemaining : Z
}.

(** What [complete()] returns. *)
Record Summary := mkSummary {
  summaryStatus : Status;
  totalDuration : Z;
  summaryStepTimings : list (option StepTiming);
  summaryQualityMetrics : gmap string QualityMetric
}.

Inductive StepResult : Type :=
| Message (message nextAction : string)
| Info (i : StepInfo)
| Completed (r : Summary).

Definition getCurrentStepInfo (s : CookingSession) : StepResult :=
  let n := length (instructions (recipe s)) in
  if decide (currentStep s = 0) then
    Message "Session initialized. Ready to start cooking." "start"
  else if decide (n < currentStep s) then
    Message "All steps completed!" "complete"
  else
    Info {| infoCurrentStep := currentStep s;
            totalSteps := n;
            currentInstruction :=
              instructions (recipe s) !! (currentStep s - 1);
            nextInstruction := instructions (recipe s) !! currentStep s;
            progress :=
              (inject_Z (Z.of_nat (currentStep s))
               / inject_Z (Z.of_nat n) * 100)%Q;
            estimatedTimeRemaining := calculateRemainingTime s |}.

(** The numeric value of [this.startTime]; [null] counts as [0]. *)
Definition startTimeValue (s : CookingSession) : Z :=
  default 0%Z (startTime s).

Definition complete (now : Z) (s : CookingSession)
  : StepResult * CookingSession :=
  let s' := set_updatedAt (set_endTime (set_status s completed) (Some now))
              now in
  (Completed {| summaryStatus := completed;
                totalDuration := (now - startTimeValue s')%Z;
                summaryStepTimings := stepTimings s';
                summaryQualityMetrics := qualityMetrics s' |},
   s').

(** [{...old, endTime, actualDuration}] where [old] may be missing. *)
Definition closeTiming (old : option StepTiming) (stop dur : Z)
  : StepTiming :=
  {| stepIndex := old ≫= stepIndex;
     stepStartTime := old ≫= stepStartTime;
     expectedDuration := old ≫= expectedDuration;
     stepEndTime := Some stop;
     actualDuration := Some dur |}.

(** [this.stepTimings[i]?.startTime || this.startTime] as a number. *)
Definition timingBase (s : CookingSession) (i : nat) : Z :=
  match array_get (stepTimings s) i ≫= stepStartTime with
  | Some t => if (t =? 0)%Z then startTimeValue s else t
  | None => startTimeValue s
  end.

(** [instruction.timing * 60000 || null]. *)
Definition expectedMs (ins : option Instruction) : option Z :=
  match ins ≫= timing with
  | Some t => if (t * 60000 =? 0)%Z then None else Some (t * 60000)%Z
  | None => None
  end.

Definition nextStep (now : Z) (s : CookingSession)
  : Completion StepResult * CookingSession :=
  if decide (status s ≠ in_progress) then
    (Throw (CookingProcessError
              "Cannot advance step when session is not in progress"), s)
  else
    let s1 :=
      if decide (0 < currentStep s) then
        let previousStepIndex := currentStep s - 1 in
        let stepDuration := (now - timingBase s previousStepIndex)%Z in
        set_stepTimings s
          (array_set (stepTimings s) previousStepIndex
             (closeTiming (array_get (stepTimings s) previousStepIndex)
                now stepDuration))
      else s in
    if decide (length (instructions (recipe s1)) ≤ currentStep s1) then
      let '(r, s2) := complete now s1 in (Normal r, s2)
    else
      let s2 :=
        set_stepTimings s1
          (array_set (stepTimings s1) (currentStep s1)
             {| stepIndex := Some (currentStep s1);
                stepStartTime := Some now;
                expectedDuration :=
                  expectedMs (instructions (recipe s1) !! currentStep s1);
                stepEndTime := None;
                actualDuration := None |}) in
      let s3 := set_updatedAt (set_currentStep s2 (S (currentStep s2)))
                  now in
      (Normal (getCurrentStepInfo s3), s3).

Definition abort (reason : option string) (now : Z) (s : CookingSession)
  : CookingSession :=
  let s' := set_updatedAt (set_endTime (set_status s aborted) (Some now))
              now in
  set_errors s'
    (errors s' ++
     [ {| errorType := "session_aborted";
          errorMessage := default "User cancelled" reason;
          errorTimestamp := now |} ]).

(** [addSensorData(sensorType, value, timestamp)]; the automation hook
    only logs. *)
Definition addSensorData (ty : string) (value : Q) (timestamp : Z)
    (s : CookingSession) : CookingSession :=
  set_sensorData s
    (sensorData s ++
     [ {| sensorType := ty;
          sensorValue := value;
          sensorTimestamp := timestamp;
          sensorStepIndex := currentStep s |} ]).

Definition updateQualityMetric (metric : string) (value : Q) (now : Z)
    (s : CookingSession) : CookingSession :=
  set_qualityMetrics s
    (<[ metric := {| metricValue := value;
                     metricTimestamp := now;
                     metricStepIndex := currentStep s |} ]>
       (qualityMetrics s)).

(** One call on a session, with the arguments and the clock reading it
    is made with. *)
Inductive Call : Type :=
| CallStart (now : Z)
| CallPause (now : Z)
| CallResume (now : Z)
| CallNextStep (now : Z)
| CallAbort (reason : option string) (now : Z)
| CallAddSensorData (ty : string) (value : Q) (timestamp : Z)
| CallUpdateQualityMetric (metric : string) (value : Q) (now : Z).

(** The session a call leaves behind, whether it returned or threw. *)
Definition exec (c : Call) (s : CookingSession) : CookingSession :=
  match c with
  | CallStart now => (start now s).2
  | CallPause now => (pause now s).2
  | CallResume now => (resume now s).2
  | CallNextStep now => (nextStep now s).2
  | CallAbort reason now => abort reason now s
  | CallAddSensorData ty v t => addSensorData ty v t s
  | CallUpdateQualityMetric m v now => updateQualityMetric m v now s
  end.

Definition run (cs : list Call) (s : CookingSession) : CookingSession :=
  foldl (fun acc c => exec c acc) s cs.

(** The four methods that check the status first. *)
Inductive Guarded : Type := GStart | GPause | GResume | GNextStep.

Definition legalSource (g : Guarded) : Status :=
  match g with
  | GStart => initialized
  | GPause => in_progress
  | GResume => paused
  | GNextStep => in_progress
  end.

Definition callGuarded (g : Guarded) (now : Z) (s : CookingSession)
  : Completion unit * CookingSession :=
  match g with
  | GStart => start now s
  | GPause => pause now s
  | GResume => resume now s
  | GNextStep =>
      let '(r, s') := nextStep now s in
      (match r with Normal _ => Normal () | Throw e => Throw e end, s')
  end.

Definition terminal (st : Status) : bool :=
  match st with completed | aborted => true | _ => false end.

Definition isAbort (c : Call) : bool :=
  match c with CallAbort _ _ => true | _ => false end.

(** One timing record per step begun, none missing. *)
Definition tracking (s : CookingSession) : Prop :=
  length (stepTimings s) = currentStep s ∧ Forall is_Some (stepTimings s).

(** Sample sessions. *)
Definition oneStepData : SessionData :=
  {| dataId := "session_1";
     dataRecipeId := "recipe_1";
     dataRecipe := mkRecipe "Toast" [mkInstruction "a" (Some 5%Z)] 1;
     dataServings := None;
     dataAutomationLevel := None;
     dataNotes := None |}.

(** A one-step session, started at time 1 and advanced once, at time 2. *)
Definition oneStepAdvanced : CookingSession :=
  run [CallStart 1; CallNextStep 2] (new oneStepData 0).

(** The same session after a second advance, at time 3. *)
Definition oneStepCompleted : CookingSession :=
  run [CallNextStep 3] oneStepAdvanced.

(** The recipe [[{step:"a", timing:5}, {step:"b", timing:10}]]. *)
Definition stepA : Instruction := mkInstruction "a" (Some 5%Z).
Definition stepB : Instruction := mkInstruction "b" (Some 10%Z).

Definition twoStepData (sid rid name : string) (n : Z) : SessionData :=
  {| dataId := sid;
     dataRecipeId := rid;
     dataRecipe := mkRecipe name [stepA; stepB] n;
     dataServings := None;
     dataAutomationLevel := None;
     dataNotes := None |}.

End Cooking.

(** ** ConsumptionProfile (src/backend/models/ConsumptionProfile.js)

    The fields that no method below reads (preferences, sharing patterns,
    prediction models, growing integration, the monthly pattern map) are
    left out.  [logEvent] writes to the console; the profile record carries
    that output as the list [console]. *)
Module Consumption.
Import JSNumber.

(** A [Date], by what the class asks of it.  [yearStartTime] and
    [yearStartDay] are the time and the week day of
    [new Date(getFullYear(), 0, 1)]. *)
Record Date := mkDate {
  getTime : Z;
  getFullYear : Z;
  getMonth : Z;
  getDate : Z;
  getDay : Z;
  getHours : Z;
  yearStartTime : Z;
  yearStartDay : Z
}.

Record ConsumptionRecord := mkRecord {
  ingredient : string;
  portionServed : number;
  portionConsumed : number;
  wasteAmount : number;
  wastePercentage : number;
  timestamp : Date;
  dayOfWeek : Z;
  timeOfDay : Z;
  season : string
}.

Record AdjustmentSettings := mkSettings {
  autoAdjustEnabled : bool;
  adjustmentThreshold : number;
  consultationRequired : bool;
  maxAdjustmentPerCycle : number;
  learningRate : number
}.

(** The object [suggestPortionAdjustment] builds.  [reasonWaste] is the
    average that its [reason] text prints. *)
Record Suggestion := mkSuggestion {
  sugIngredient : string;
  currentPortion : number;
  suggestedPortion : number;
  reduction : number;
  reductionPercentage : number;
  reasonWaste : number;
  sugTimestamp : Date;
  requiresConsultation : bool
}.

(** The object [applyPortionAdjustment] builds. *)
Record Adjustment := mkAdjustment {
  adjIngredient : string;
  oldPortion : number;
  newPortion : number;
  change : number;
  changePercentage : number;
  appliedAt : Date;
  userApproved : bool
}.

Inductive Payload : Type :=
| SuggestionData (a : Suggestion)
| AdjustmentData (a : Adjustment).

(** One line of console output: the event type and the object printed. *)
Record LogEvent := mkLogEvent {
  eventType : string;
  eventData : Payload
}.

(** An entry of the daily pattern list; the key text
    [year-month-date] is kept as its three numbers. *)
Record DailyEntry := mkDailyEntry {
  dailyDate : Z * Z * Z;
  dailyAmount : number;
  dailyTimestamp : Date
}.

(** The week key text [year-Wn] is kept as the pair [(year, n)]. *)
Record ConsumptionProfile := mkProfile {
  id : string;
  daily : gmap string (list DailyEntry);
  weekly : gmap string (gmap (Z * Z) (list number));
  seasonal : gmap string (gmap string (list number));
  portionHistory : list ConsumptionRecord;
  currentPortions : gmap string number;
  wasteTracking : gmap string (list number);
  overallWasteRate : number;
  adjustmentSettings : AdjustmentSettings;
  updatedAt : Date;
  lastConsumptionUpdate : option Date;
  console : list LogEvent
}.

(** The argument of the constructor; a field left out takes its
    default. *)
Record ProfileData := mkProfileData {
  dataId : string;
  dataConsumptionPatterns :
    option (gmap string (list DailyEntry)
            * gmap string (gmap (Z * Z) (list number))
            * gmap string (gmap string (list number)));
  dataPortionHistory : option (list ConsumptionRecord);
  dataCurrentPortions : option (gmap string number);
  dataWasteTracking : option (gmap string (list number));
  dataOverallWasteRate : option number;
  dataAdjustmentSettings : option AdjustmentSettings
}.

Definition defaultSettings : AdjustmentSettings :=
  {| autoAdjustEnabled := true;
     adjustmentThreshold := Fin (15 # 100);
     consultationRequired := true;
     maxAdjustmentPerCycle := Fin (20 # 100);
     learningRate := Fin (1 # 10) |}.

Definition new (data : ProfileData) (now : Date) : ConsumptionProfile :=
  {| id := dataId data;
     daily := default ∅ ((fun t => t.1.1) <$> dataConsumptionPatterns data);
     weekly := default ∅ ((fun t => t.1.2) <$> dataConsumptionPatterns data);
     seasonal := default ∅ ((fun t => t.2) <$> dataConsumptionPatterns data);
     portionHistory := default [] (dataPortionHistory data);
     currentPortions := default ∅ (dataCurrentPortions data);
     wasteTracking := default ∅ (dataWasteTracking data);
     overallWasteRate := default (Fin 0) (dataOverallWasteRate data);
     adjustmentSettings :=
       default defaultSettings (dataAdjustmentSettings data);
     updatedAt := now;
     lastConsumptionUpdate := None;
     console := [] |}.

Section Setters.
Variable p : ConsumptionProfile.

Definition set_patterns
    (d : gmap string (list DailyEntry))
    (w : gmap string (gmap (Z * Z) (list number)))
    (s : gmap string (gmap string (list number)))
  : ConsumptionProfile :=
  mkProfile (id p) d w s (portionHistory p) (currentPortions p)
    (wasteTracking p) (overallWasteRate p) (adjustmentSettings p)
    (updatedAt p) (lastConsumptionUpdate p) (console p).

Definition set_portionHistory (v : list ConsumptionRecord)
  : ConsumptionProfile :=
  mkProfile (id p) (daily p) (weekly p) (seasonal p) v
    (currentPortions p) (wasteTracking p) (overallWasteRate p)
    (adjustmentSettings p) (updatedAt p) (lastConsumptionUpdate p)
    (console p).

Definition set_currentPortions (v : gmap string number)
  : ConsumptionProfile :=
  mkProfile (id p) (daily p) (weekly p) (seasonal p) (portionHistory p)
    v (wasteTracking p) (overallWasteRate p) (adjustmentSettings p)
    (updatedAt p) (lastConsumptionUpdate p) (console p).

Definition set_wasteTracking (v : gmap string (list number))
  : ConsumptionProfile :=
  mkProfile (id p) (daily p) (weekly p) (seasonal p) (portionHistory p)
    (currentPortions p) v (overallWasteRate p) (adjustmentSettings p)
    (updatedAt p) (lastConsumptionUpdate p) (console p).

Definition set_overallWasteRate (v : number) : ConsumptionProfile :=
  mkProfile (id p) (daily p) (weekly p) (seasonal p) (portionHistory p)
    (currentPortions p) (wasteTracking p) v (adjustmentSettings p)
    (updatedAt p) (lastConsumptionUpdate p) (console p).

Definition set_updated (u : Date) (l : option Date)
  : ConsumptionProfile :=
  mkProfile (id p) (daily p) (weekly p) (seasonal p) (portionHistory p)
    (currentPortions p) (wasteTracking p) (overallWasteRate p)
    (adjustmentSettings p) u l (console p).

(** [logEvent(eventType, data)]. *)
Definition logEvent (ty : string) (d : Payload) : ConsumptionProfile :=
  mkProfile (id p) (daily p) (weekly p) (seasonal p) (portionHistory p)
    (currentPortions p) (wasteTracking p) (overallWasteRate p)
    (adjustmentSettings p) (updatedAt p) (lastConsumptionUpdate p)
    (console p ++ [mkLogEvent ty d]).
End Setters.

Definition getSeason (date : Date) : string :=
  let month := getMonth date in
  if decide (2 ≤ month ∧ month ≤ 4)%Z then "spring"
  else if decide (5 ≤ month ∧ month ≤ 7)%Z then "summer"
  else if decide (8 ≤ month ∧ month ≤ 10)%Z then "fall"
  else "winter".

Definition getWeekNumber (date : Date) : Z :=
  let pastDaysOfYear :=
    (inject_Z (getTime date - yearStartTime date) / 86400000)%Q in
  Qceiling ((pastDaysOfYear + inject_Z (yearStartDay date) + 1) / 7)%Q.

(** [map.get(k)] followed by [push(x)], the list being created on first
    use. *)
Definition push_at `{Countable K} {A} (k : K) (x : A)
    (m : gmap K (list A)) : gmap K (list A) :=
  <[ k := default [] (m !! k) ++ [x] ]> m.

Definition updateConsumptionPatterns (record : ConsumptionRecord)
    (p : ConsumptionProfile) : ConsumptionProfile :=
  let i := ingredient record in
  let t := timestamp record in
  let dailyKey := (getFullYear t, getMonth t, getDate t) in
  let weekKey := (getFullYear t, getWeekNumber t) in
  set_patterns p
    (push_at i (mkDailyEntry dailyKey (portionConsumed record) t)
       (daily p))
    (<[ i := push_at weekKey (portionConsumed record)
               (default ∅ (weekly p !! i)) ]> (weekly p))
    (<[ i := push_at (getSeason t) (portionConsumed record)
               (default ∅ (seasonal p !! i)) ]> (seasonal p)).

(** [calculateOverallWasteRate()].  The loop adds, window by window, the
    sum and the length; [map_to_list] lists the windows in the order of
    the keys, not in the order of insertion of the source's [Map]. *)
Definition wasteTotals (m : gmap string (list number)) : number * nat :=
  foldl (fun acc kv => ((acc.1 + sum kv.2)%num, acc.2 + length kv.2))
    (Fin 0, 0) (map_to_list m).

Definition overallRate (m : gmap string (list number)) : number :=
  let '(totalWaste, totalRecords) := wasteTotals m in
  if decide (0 < totalRecords) then (totalWaste / of_nat totalRecords)%num
  else Fin 0.

Definition calculateOverallWasteRate (p : ConsumptionProfile)
  : ConsumptionProfile :=
  set_overallWasteRate p (overallRate (wasteTracking p)).

(** [push] then, over 30 entries, one [shift]. *)
Definition pushWindow (wasteHistory : list number) (w : number)
  : list number :=
  let pushed := wasteHistory ++ [w] in
  if decide (30 < length pushed) then drop 1 pushed else pushed.

Definition updateWasteTracking (i : string) (w : number)
    (p : ConsumptionProfile) : ConsumptionProfile :=
  let wasteHistory := default [] (wasteTracking p !! i) in
  calculateOverallWasteRate
    (set_wasteTracking p (<[ i := pushWindow wasteHistory w ]>
                            (wasteTracking p))).

(** [arr.slice(-n)]. *)
Definition lastN {A} (n : nat) (l : list A) : list A :=
  drop (length l - n) l.

Definition suggestPortionAdjustment (i : string) (averageWaste : number)
    (now : Date) (p : ConsumptionProfile)
  : Suggestion * ConsumptionProfile :=
  let current := or_default (currentPortions p !! i) (Fin 100) in
  let wasteRatio := (averageWaste / Fin 100)%num in
  let settings := adjustmentSettings p in
  let adjustmentFactor :=
    min (Fin 1 - wasteRatio * learningRate settings)%num
        (Fin 1 - maxAdjustmentPerCycle settings)%num in
  let suggested :=
    max (current * adjustmentFactor)%num (current * Fin (1 # 2))%num in
  let adjustment :=
    {| sugIngredient := i;
       currentPortion := current;
       suggestedPortion := suggested;
       reduction := (current - suggested)%num;
       reductionPercentage :=
         ((current - suggested) / current * Fin 100)%num;
       reasonWaste := averageWaste;
       sugTimestamp := now;
       requiresConsultation := consultationRequired settings |} in
  (adjustment,
   logEvent p "portion_adjustment_suggested" (SuggestionData adjustment)).

(** The average over the last five entries, once there are five. *)
Definition recentAverage (wasteHistory : list number) : option number :=
  if decide (length wasteHistory < 5) then None
  else
    let recentWaste := lastN 5 wasteHistory in
    Some (sum recentWaste / of_nat (length recentWaste))%num.

Definition checkForPortionAdjustment (i : string) (now : Date)
    (p : ConsumptionProfile) : ConsumptionProfile :=
  match wasteTracking p !! i ≫= recentAverage with
  | None => p
  | Some averageWaste =>
      if gt averageWaste
           (adjustmentThreshold (adjustmentSettings p) * Fin 100)%num
      then (suggestPortionAdjustment i averageWaste now p).2
      else p
  end.

(** [recordConsumption(ingredient, portionServed, portionConsumed,
    timestamp)]; [now] is the clock when a suggestion is made. *)
Definition recordConsumption (i : string) (served consumed : number)
    (ts now : Date) (p : ConsumptionProfile)
  : ConsumptionRecord * ConsumptionProfile :=
  let consumptionRecord :=
    {| ingredient := i;
       portionServed := served;
       portionConsumed := consumed;
       wasteAmount := (served - consumed)%num;
       wastePercentage := ((served - consumed) / served * Fin 100)%num;
       timestamp := ts;
       dayOfWeek := getDay ts;
       timeOfDay := getHours ts;
       season := getSeason ts |} in
  let p1 := set_portionHistory p (portionHistory p ++ [consumptionRecord]) in
  let p2 := updateConsumptionPatterns consumptionRecord p1 in
  let p3 := updateWasteTracking i (wastePercentage consumptionRecord) p2 in
  let p4 := checkForPortionAdjustment i now p3 in
  (consumptionRecord, set_updated p4 ts (Some ts)).

Definition applyPortionAdjustment (i : string) (portion : number)
    (approved : bool) (now : Date) (p : ConsumptionProfile)
  : Completion Adjustment * ConsumptionProfile :=
  let old := or_default (currentPortions p !! i) (Fin 100) in
  if consultationRequired (adjustmentSettings p) && negb approved then
    (Throw (mkError "Error"
              "User consultation required for portion adjustment"), p)
  else
    let p1 := set_currentPortions p (<[ i := portion ]> (currentPortions p)) in
    let adjustment :=
      {| adjIngredient := i;
         oldPortion := old;
         newPortion := portion;
         change := (portion - old)%num;
         changePercentage := ((portion - old) / old * Fin 100)%num;
         appliedAt := now;
         userApproved := approved |} in
    let p2 := logEvent p1 "portion_adjustment_applied"
                (AdjustmentData adjustment) in
    (Normal adjustment, set_updated p2 now (lastConsumptionUpdate p2)).

(** One [recordConsumption] call with its arguments. *)
Record Consume := mkConsume {
  cIngredient : string;
  cServed : number;
  cConsumed : number;
  cTimestamp : Date;
  cNow : Date
}.

Definition consume (c : Consume) (p : ConsumptionProfile)
  : ConsumptionProfile :=
  (recordConsumption (cIngredient c) (cServed c) (cConsumed c)
     (cTimestamp c) (cNow c) p).2.

Definition run (cs : list Consume) (p : ConsumptionProfile)
  : ConsumptionProfile :=
  foldl (fun acc c => consume c acc) p cs.

(** *** Demand prediction *)

(** The records of an ingredient not older than [days] days before
    [now]; the cut-off is taken [days] times 24 hours back. *)
Definition getHistoricalConsumption (i : string) (days : Z) (now : Date)
    (p : ConsumptionProfile) : list ConsumptionRecord :=
  let cutoff := (getTime now - days * 86400000)%Z in
  filter (fun r => ingredient r = i ∧ (cutoff ≤ getTime (timestamp r))%Z)
    (portionHistory p).

Definition sumConsumed (l : list ConsumptionRecord) : number :=
  foldl (fun acc r => (acc + portionConsumed r)%num) (Fin 0) l.

Definition getRecentAverageConsumption (i : string) (days : Z)
    (now : Date) (p : ConsumptionProfile) : number :=
  let recentData := getHistoricalConsumption i days now p in
  if decide (length recentData = 0) then Fin 0
  else (sumConsumed recentData / of_nat (length recentData))%num.

(** [defaults[ingredient] || 100], for the names the table lists and for
    names that no JavaScript object inherits. *)
Definition getDefaultPortion (i : string) : number :=
  let defaults : gmap string number :=
    list_to_map
      [("lettuce", Fin 80); ("tomato", Fin 120); ("herbs", Fin 15);
       ("spinach", Fin 100); ("cucumber", Fin 150); ("carrot", Fin 100);
       ("onion", Fin 80); ("garlic", Fin 10)] in
  or_default (defaults !! i) (Fin 100).

Definition getSeasonalMultiplier (i season : string) (now : Date)
    (p : ConsumptionProfile) : number :=
  match seasonal p !! i ≫= (fun seasonalData => seasonalData !! season) with
  | None => Fin 1
  | Some seasonalConsumption =>
      let averageConsumption :=
        (sum seasonalConsumption
         / of_nat (length seasonalConsumption))%num in
      let overallAverage := getRecentAverageConsumption i 365 now p in
      if gt overallAverage (Fin 0)
      then (averageConsumption / overallAverage)%num
      else Fin 1
  end.

(** [x === 0]. *)
Definition isZero (n : number) : bool :=
  match n with Fin q => Qeq_bool q 0 | _ => false end.

Definition getTrendMultiplier (i : string) (now : Date)
    (p : ConsumptionProfile) : number :=
  let recentAverage := getRecentAverageConsumption i 30 now p in
  let older :=
    let h := getHistoricalConsumption i 90 now p in
    take (length h - 30) h in
  let olderAverage :=
    foldl (fun acc r =>
             (acc + portionConsumed r / of_nat (length older))%num)
      (Fin 0) older in
  if isZero olderAverage then Fin 1
  else (recentAverage / olderAverage)%num.

Definition calculateVariance (values : list number) : number :=
  let mean := (sum values / of_nat (length values))%num in
  (foldl (fun acc val => (acc + (val - mean) * (val - mean))%num)
     (Fin 0) values
   / of_nat (length values))%num.

(** What [predictDemand] returns when there is history. *)
Record Factors := mkFactors {
  historical : number;
  seasonalFactor : number;
  trend : number
}.

Record Forecast := mkForecast {
  fcIngredient : string;
  daysAhead : number;
  predictedDailyConsumption : number;
  totalPredictedDemand : number;
  confidence : number;
  factors : Factors
}.

Inductive Prediction : Type :=
| BareNumber (n : number)
| Structured (f : Forecast).

Section Predict.
(** [Math.sqrt], which the rational model of numbers cannot define. *)
Variable sqrt : number -> number.

Definition calculatePredictionConfidence (i : string) (dataPoints : nat)
    (now : Date) (p : ConsumptionProfile) : number :=
  let confidence0 := min (of_nat dataPoints / Fin 30)%num (Fin 1) in
  let recentData := getHistoricalConsumption i 14 now p in
  let confidence1 :=
    if decide (1 < length recentData) then
      let variance := calculateVariance (portionConsumed <$> recentData) in
      let mean :=
        (sumConsumed recentData / of_nat (length recentData))%num in
      let coefficientOfVariation := (sqrt variance / mean)%num in
      (confidence0
       * max (Fin (3 # 10)) (Fin 1 - coefficientOfVariation))%num
    else confidence0 in
  max (Fin (1 # 10)) (min (Fin (95 # 100)) confidence1).

Definition predictDemand (i : string) (days : number) (now : Date)
    (p : ConsumptionProfile) : Prediction :=
  let historicalData := getHistoricalConsumption i 30 now p in
  if decide (length historicalData = 0) then
    BareNumber (getDefaultPortion i * days)%num
  else
    let averageDailyConsumption :=
      (sumConsumed historicalData
       / of_nat (length historicalData))%num in
    let currentSeason := getSeason now in
    let seasonalMultiplier :=
      getSeasonalMultiplier i currentSeason now p in
    let trendMultiplier := getTrendMultiplier i now p in
    let predictedDemand :=
      (averageDailyConsumption * days * seasonalMultiplier
       * trendMultiplier)%num in
    Structured
      {| fcIngredient := i;
         daysAhead := days;
         predictedDailyConsumption :=
           (averageDailyConsumption * seasonalMultiplier
            * trendMultiplier)%num;
         totalPredictedDemand := predictedDemand;
         confidence :=
           calculatePredictionConfidence i (length historicalData)
             now p;
         factors := {| historical := averageDailyConsumption;
                       seasonalFactor := seasonalMultiplier;
                       trend := trendMultiplier |} |}.
End Predict.

(** *** Predicates of the properties *)

(** No window holds more than 30 entries. *)
Definition windowsBounded (p : ConsumptionProfile) : Prop :=
  map_Forall (fun _ l => length l ≤ 30) (wasteTracking p).

(** The window of ingredient [i] holds a non-finite entry with [k]
    entries after it. *)
Definition tainted (i : string) (k : nat) (p : ConsumptionProfile)
  : Prop :=
  ∃ pre x post,
    wasteTracking p !! i = Some (pre ++ x :: post)
    ∧ isFinite x = false
    ∧ length post = k.

(** The waste percentage that a call stores. *)
Definition percentage (c : Consume) : number :=
  ((cServed c - cConsumed c) / cServed c * Fin 100)%num.

(** The waste percentages of the calls on ingredient [i], oldest first. *)
Definition percentagesOf (i : string) (cs : list Consume) : list number :=
  percentage <$> filter (fun c => cIngredient c = i) cs.

(** How many of the calls record ingredient [i]. *)
Definition recordsOf (i : string) (cs : list Consume) : nat :=
  length (filter (fun c => cIngredient c = i) cs).

(** Sample data: a clock [t] milliseconds after noon of Sunday
    15 June 2025 (UTC), and profiles to record on. *)
Definition sampleDate (t : Z) : Date :=
  {| getTime := 1749988800000 + t;
     getFullYear := 2025;
     getMonth := 5;
     getDate := 15;
     getDay := 0;
     getHours := 12;
     yearStartTime := 1735689600000;
     yearStartDay := 3 |}.

Definition freshData : ProfileData :=
  mkProfileData "profile_1" None None None None None None.

Definition fresh : ConsumptionProfile := new freshData (sampleDate 0).

(** Lettuce served and consumed, in grams, at clock [t]. *)
Definition lettuce (served consumed : Q) (t : Z) : Consume :=
  mkConsume "lettuce" (Fin served) (Fin consumed)
    (sampleDate t) (sampleDate t).

(** The default settings but for a learning rate of one half. *)
Definition eagerSettings : AdjustmentSettings :=
  {| autoAdjustEnabled := true;
     adjustmentThreshold := Fin (15 # 100);
     consultationRequired := true;
     maxAdjustmentPerCycle := Fin (20 # 100);
     learningRate := Fin (1 # 2) |}.

Definition eager : ConsumptionProfile :=
  new (mkProfileData "profile_2" None None None None None
         (Some eagerSettings))
    (sampleDate 0).

(** Five servings of 100 g of which 40 g are eaten. *)
Definition eagerAfterFive : ConsumptionProfile :=
  run (replicate 5 (lettuce 100 40 1)) eager.

(** A record with a negative serving, as an unchecked request can send
    it. *)
Definition negativeServing : ConsumptionRecord :=
  (recordConsumption "lettuce" (Fin (-10)) (Fin (-5)) (sampleDate 0)
     (sampleDate 0) fresh).1.

(** A serving of zero, then [n] servings of 100 g with 70 g eaten. *)
Definition zeroThenGood (n : nat) : ConsumptionProfile :=
  run (lettuce 0 0 0 :: replicate n (lettuce 100 70 1)) fresh.

End Consumption.

(** ** Invariants of a cooking session *)
Module CookingInvariants.
Import Cooking.

(** A timing record that [nextStep] has closed: it ended at some time, and
    its duration runs from its own start, or from [base], the start of the
    session, when its own start reads 0. *)
Definition closedAt (base : Z) (r : StepTiming) : Prop :=
  ∃ t e,
    stepStartTime r = Some t
    ∧ stepEndTime r = Some e
    ∧ actualDuration r = Some (e - (if (t =? 0)%Z then base else t))%Z.

(** A timing record that is begun and not closed. *)
Definition openRecord (r : StepTiming) : Prop :=
  is_Some (stepStartTime r) ∧ stepEndTime r = None ∧ actualDuration r = None.

(** The shape of [stepTimings]: one record per step begun, the record at
    slot [i] for instruction [i]; the records before the last are closed,
    the last one is open while the session runs and closed once it is
    completed; a record ends when the next one starts. *)
Definition wellTimed (s : CookingSession) : Prop :=
  length (stepTimings s) = currentStep s
  ∧ (status s = initialized → currentStep s = 0)
  ∧ (∀ i, i < currentStep s →
       ∃ r,
         stepTimings s !! i = Some (Some r)
         ∧ stepIndex r = Some i
         ∧ is_Some (stepStartTime r)
         ∧ expectedDuration r = expectedMs (instructions (recipe s) !! i)
         ∧ (S i < currentStep s ∨ status s = completed →
            closedAt (startTimeValue s) r)
         ∧ (S i = currentStep s →
            status s = in_progress ∨ status s = paused →
            openRecord r))
  ∧ (∀ i r r',
       stepTimings s !! i = Some (Some r) →
       stepTimings s !! S i = Some (Some r') →
       stepEndTime r = stepStartTime r').

(** The status agrees with the start and end times. *)
Definition coherent (s : CookingSession) : Prop :=
  (status s = initialized → startTime s = None)
  ∧ (status s = in_progress ∨ status s = paused ∨ status s = completed →
     is_Some (startTime s))
  ∧ (terminal (status s) = true ↔ is_Some (endTime s)).

Definition isSensor (c : Call) : bool :=
  match c with CallAddSensorData _ _ _ => true | _ => false end.

(** The value of the last [updateQualityMetric] call for [metric]. *)
Definition lastMetric (metric : string) (cs : list Call) : option Q :=
  last (omap (fun c =>
                match c with
                | CallUpdateQualityMetric m v _ =>
                    if decide (m = metric) then Some v else None
                | _ => None
                end) cs).

(** The entries that the [abort] calls of a sequence write to [errors]. *)
Definition abortEntries (cs : list Call) : list SessionError :=
  omap (fun c =>
          match c with
          | CallAbort reason now =>
              Some {| errorType := "session_aborted";
                      errorMessage := default "User cancelled" reason;
                      errorTimestamp := now |}
          | _ => None
          end) cs.

(** The sensor readings carry step indices in non-decreasing order, none
    above the current step index. *)
Definition taggedInOrder (s : CookingSession) : Prop :=
  StronglySorted (fun a b => sensorStepIndex a ≤ sensorStepIndex b)
    (sensorData s)
  ∧ Forall (fun r => sensorStepIndex r ≤ currentStep s) (sensorData s).

End CookingInvariants.

(** ** ConsumptionProfile: the optimal portion *)
Module ConsumptionMore.
Import JSNumber Consumption.

(** [Math.round]: the nearest integer, a half going up. *)
Definition round (n : number) : number :=
  match n with
  | Fin q => Fin (inject_Z (Qfloor (q + (1 # 2))))
  | _ => n
  end.

(** [getOptimalPortion(ingredient)], at clock [now]. *)
Definition getOptimalPortion (i : string) (now : Date)
    (p : ConsumptionProfile) : number :=
  let fromHistory :=
    let recentConsumption := getRecentAverageConsumption i 14 now p in
    if gt recentConsumption (Fin 0)
    then round (recentConsumption * Fin (105 # 100))%num
    else getDefaultPortion i in
  match currentPortions p !! i with
  | Some currentPortion =>
      if truthy currentPortion then currentPortion else fromHistory
  | None => fromHistory
  end.

(** The record that a call stores; it does not depend on the profile. *)
Definition recordOf (c : Consume) : ConsumptionRecord :=
  (recordConsumption (cIngredient c) (cServed c) (cConsumed c)
     (cTimestamp c) (cNow c) fresh).1.

(** A finite number within [lo .. hi]. *)
Definition within (lo hi : Q) (n : number) : Prop :=
  ∃ q, n = Fin q ∧ (lo <= q)%Q ∧ (q <= hi)%Q.

(** A call with a positive serving of which no more than all and no less
    than nothing is consumed. *)
Definition sane (c : Consume) : Prop :=
  ∃ s q,
    cServed c = Fin s ∧ cConsumed c = Fin q
    ∧ (0 < s)%Q ∧ (0 <= q)%Q ∧ (q <= s)%Q.

(** Every entry of every window is a percentage from 0 to 100. *)
Definition percentagesInRange (p : ConsumptionProfile) : Prop :=
  map_Forall (fun _ l => Forall (within 0 100) l) (wasteTracking p).

(** A count as a rational. *)
Definition cnt (n : nat) : Q := inject_Z (Z.of_nat n).

(** A finite number equal to [q]. *)
Definition isQ (q : Q) (n : number) : Prop :=
  ∃ q', n = Fin q' ∧ (q' == q)%Q.

End ConsumptionMore.

(** ** PrecisionDistributionService
    (src/backend/services/PrecisionDistributionService.js)

    The part of the service that acts on the consumption profiles.  The
    schedule that [recordConsumption] regenerates afterwards reads the
    profile and writes the schedule and container maps only; it is left
    out. *)
Module Distribution.
Import JSNumber Consumption.

(** [consultUser]: the simulated answer approves a reduction below 30
    percent. *)
Definition consultUser (adjustment : Suggestion) : bool :=
  gt (Fin 30) (reductionPercentage adjustment).

(** [handleAutomaticAdjustment(userId, ingredient, consumptionRecord)] on
    the profile of the user.  The method is asynchronous; this is the
    profile once its promise has settled. *)
Definition handleAutomaticAdjustment (i : string)
    (consumptionRecord : ConsumptionRecord) (now : Date)
    (p : ConsumptionProfile) : Completion unit * ConsumptionProfile :=
  let '(adjustment, p1) :=
    suggestPortionAdjustment i (wastePercentage consumptionRecord) now p in
  if consultationRequired (adjustmentSettings p1) then
    if consultUser adjustment then
      match applyPortionAdjustment i (suggestedPortion adjustment) true
              now p1 with
      | (Normal _, p2) => (Normal (), p2)
      | (Throw e, p2) => (Throw e, p2)
      end
    else (Normal (), p1)
  else
    match applyPortionAdjustment i (suggestedPortion adjustment) false
            now p1 with
    | (Normal _, p2) => (Normal (), p2)
    | (Throw e, p2) => (Throw e, p2)
    end.

(** [recordConsumption(userId, ingredient, portionServed, portionConsumed,
    timestamp)] on the map of profiles. *)
Definition recordConsumption (userId i : string) (served consumed : number)
    (ts now : Date) (profiles : gmap string ConsumptionProfile)
  : Completion ConsumptionRecord * gmap string ConsumptionProfile :=
  match profiles !! userId with
  | None =>
      (Throw (mkError "Error" ("Profile not found for user " +:+ userId)),
       profiles)
  | Some profile =>
      let '(consumptionRecord, p1) :=
        Consumption.recordConsumption i served consumed ts now profile in
      let p2 :=
        if gt (wastePercentage consumptionRecord)
             (adjustmentThreshold (adjustmentSettings p1) * Fin 100)%num
        then (handleAutomaticAdjustment i consumptionRecord now p1).2
        else p1 in
      (Normal consumptionRecord, <[ userId := p2 ]> profiles)
  end.

(** What [estimateWasteReduction] returns, from the totals of a schedule
    and the overall waste rate of the profile. *)
Record WasteEstimate := mkWasteEstimate {
  traditionalWaste : number;
  precisionWaste : number;
  wasteReduction : number;
  wasteReductionPercentage : number;
  totalFood : number
}.

Definition estimateWasteReduction (p : ConsumptionProfile)
    (totalIngredients : list number) : WasteEstimate :=
  let currentWasteRate := (overallWasteRate p / Fin 100)%num in
  let traditionalWasteRate := Fin (25 # 100) in
  let total := sum totalIngredients in
  let traditional := (total * traditionalWasteRate)%num in
  let precision := (total * currentWasteRate)%num in
  let reduction := (traditional - precision)%num in
  {| traditionalWaste := traditional;
     precisionWaste := precision;
     wasteReduction := reduction;
     wasteReductionPercentage := (reduction / traditional * Fin 100)%num;
     totalFood := total |}.

(** A service with one user, on a fresh profile. *)
Definition oneUser : gmap string ConsumptionProfile :=
  {[ "user_1" := fresh ]}.

End Distribution.

(** ** The routes of cooking.js

    The handlers of the [POST] routes, on the map [cookingSessions].  A
    handler returns the status code and the body it sends, and the map it
    leaves.  [POST /start] receives the body as the validation middleware
    passes it on, and the session id, which the constructor draws from the
    clock and [Math.random]. *)
Module CookingRouter.
Import Cooking.

Inductive Body : Type :=
| ErrorBody (error message : string)
| StartBody (sessionId : string) (st : Status) (step : StepResult)
    (message : string)
| NextBody (sessionId : string) (st : Status) (step result : StepResult)
| PauseBody (sessionId : string) (st : Status) (message : string)
| ResumeBody (sessionId : string) (st : Status) (step : StepResult)
    (message : string)
| AbortBody (sessionId : string) (st : Status) (message : string)
| SensorBody (sessionId message ty : string) (value : Q) (timestamp : Z).

Record Response := mkResponse {
  statusCode : nat;
  body : Body
}.

(** The body of [POST /start] after validation. *)
Record StartRequest := mkStartRequest {
  reqRecipeId : string;
  reqServings : option Z;
  reqAutomationLevel : option string;
  reqNotes : option string
}.

(** The recipe that [POST /start] cooks, whatever the recipe id. *)
Definition sampleRecipe : Recipe :=
  {| recipeName := "Sample Recipe";
     instructions :=
       [ mkInstruction "Prepare ingredients" (Some 5%Z);
         mkInstruction "Cook ingredients" (Some 15%Z);
         mkInstruction "Serve" (Some 2%Z) ];
     recipeServings := 4 |}.

Definition notFound (sessionId : string) : Response :=
  mkResponse 404
    (ErrorBody "Not Found"
       ("Cooking session " +:+ sessionId +:+ " not found")).

Definition conflict (e : JSError) : Response :=
  mkResponse 409 (ErrorBody "Cooking Process Error" (errMessage e)).

Definition postStart (req : StartRequest) (sid : string) (now : Z)
    (sessions : gmap string CookingSession)
  : Response * gmap string CookingSession :=
  let session :=
    new {| dataId := sid;
           dataRecipeId := reqRecipeId req;
           dataRecipe := sampleRecipe;
           dataServings := reqServings req;
           dataAutomationLevel := reqAutomationLevel req;
           dataNotes := reqNotes req |} now in
  match start now session with
  | (Normal _, session') =>
      (mkResponse 201
         (StartBody (id session') (status session')
            (getCurrentStepInfo session')
            "Cooking session started successfully"),
       <[ id session' := session' ]> sessions)
  | (Throw _, _) =>
      (mkResponse 500
         (ErrorBody "Internal Server Error"
            "Failed to start cooking session"),
       sessions)
  end.

Definition postNext (sessionId : string) (now : Z)
    (sessions : gmap string CookingSession)
  : Response * gmap string CookingSession :=
  match sessions !! sessionId with
  | None => (notFound sessionId, sessions)
  | Some session =>
      match nextStep now session with
      | (Normal result, session') =>
          (mkResponse 200
             (NextBody (id session') (status session')
                (getCurrentStepInfo session') result),
           <[ sessionId := session' ]> sessions)
      | (Throw e, session') =>
          (conflict e, <[ sessionId := session' ]> sessions)
      end
  end.

Definition postPause (sessionId : string) (now : Z)
    (sessions : gmap string CookingSession)
  : Response * gmap string CookingSession :=
  match sessions !! sessionId with
  | None => (notFound sessionId, sessions)
  | Some session =>
      match pause now session with
      | (Normal _, session') =>
          (mkResponse 200
             (PauseBody (id session') (status session')
                "Cooking session paused"),
           <[ sessionId := session' ]> sessions)
      | (Throw e, session') =>
          (conflict e, <[ sessionId := session' ]> sessions)
      end
  end.

Definition postResume (sessionId : string) (now : Z)
    (sessions : gmap string CookingSession)
  : Response * gmap string CookingSession :=
  match sessions !! sessionId with
  | None => (notFound sessionId, sessions)
  | Some session =>
      match resume now session with
      | (Normal _, session') =>
          (mkResponse 200
             (ResumeBody (id session') (status session')
                (getCurrentStepInfo session') "Cooking session resumed"),
           <[ sessionId := session' ]> sessions)
      | (Throw e, session') =>
          (conflict e, <[ sessionId := session' ]> sessions)
      end
  end.

Definition postAbort (sessionId : string) (reason : option string)
    (now : Z) (sessions : gmap string CookingSession)
  : Response * gmap string CookingSession :=
  match sessions !! sessionId with
  | None => (notFound sessionId, sessions)
  | Some session =>
      let session' := abort reason now session in
      (mkResponse 200
         (AbortBody (id session') (status session')
            "Cooking session aborted"),
       <[ sessionId := session' ]> sessions)
  end.

(** [now] is the clock reading that [addSensorData] takes for its missing
    third argument, [sent] the one of the answer. *)
Definition postSensor (sessionId ty : string) (value : Q) (now sent : Z)
    (sessions : gmap string CookingSession)
  : Response * gmap string CookingSession :=
  match sessions !! sessionId with
  | None => (notFound sessionId, sessions)
  | Some session =>
      let session' := addSensorData ty value now session in
      (mkResponse 200
         (SensorBody (id session') "Sensor data recorded" ty value sent),
       <[ sessionId := session' ]> sessions)
  end.

(** A request to one of the routes. *)
Inductive Request : Type :=
| PostStart (req : StartRequest) (sid : string) (now : Z)
| PostNext (sessionId : string) (now : Z)
| PostPause (sessionId : string) (now : Z)
| PostResume (sessionId : string) (now : Z)
| PostAbort (sessionId : string) (reason : option string) (now : Z)
| PostSensor (sessionId ty : string) (value : Q) (now sent : Z).

Definition handle (r : Request) (sessions : gmap string CookingSession)
  : Response * gmap string CookingSession :=
  match r with
  | PostStart req sid now => postStart req sid now sessions
  | PostNext sid now => postNext sid now sessions
  | PostPause sid now => postPause sid now sessions
  | PostResume sid now => postResume sid now sessions
  | PostAbort sid reason now => postAbort sid reason now sessions
  | PostSensor sid ty v now sent => postSensor sid ty v now sent sessions
  end.

Definition serve (rs : list Request) (sessions : gmap string CookingSession)
  : gmap string CookingSession :=
  foldl (fun acc r => (handle r acc).2) sessions rs.

(** The session id that a request names; [POST /start] names none. *)
Definition target (r : Request) : option string :=
  match r with
  | PostStart _ _ _ => None
  | PostNext sid _ | PostPause sid _ | PostResume sid _
  | PostAbort sid _ _ | PostSensor sid _ _ _ _ => Some sid
  end.

(** The method that the handler of a request calls on the session it
    finds; [POST /start] works on a session of its own. *)
Definition callOf (r : Request) : option Call :=
  match r with
  | PostStart _ _ _ => None
  | PostNext _ now => Some (CallNextStep now)
  | PostPause _ now => Some (CallPause now)
  | PostResume _ now => Some (CallResume now)
  | PostAbort _ reason now => Some (CallAbort reason now)
  | PostSensor _ ty v now _ => Some (CallAddSensorData ty v now)
  end.

(** The status that the method behind a request asks for, for the three
    handlers with a [CookingProcessError] branch. *)
Definition guardOf (r : Request) : option Status :=
  match r with
  | PostNext _ _ | PostPause _ _ => Some in_progress
  | PostResume _ _ => Some paused
  | PostStart _ _ _ | PostAbort _ _ _ | PostSensor _ _ _ _ _ => None
  end.

(** What holds of every stored session: it is kept under its own id, it
    cooks the sample recipe, it has been started, and its step index is
    within the recipe. *)
Definition stored (sessions : gmap string CookingSession) : Prop :=
  map_Forall
    (fun k s =>
       id s = k ∧ recipe s = sampleRecipe ∧ status s ≠ initialized
       ∧ currentStep s ≤ 3)
    sessions.

Definition sampleRequest : StartRequest :=
  {| reqRecipeId := "recipe_1";
     reqServings := None;
     reqAutomationLevel := None;
     reqNotes := None |}.

End CookingRouter.

(** * Properties of the numbers *)
Module NumberFacts.
Import JSNumber.

Lemma isFinite_add a b : isFinite (a + b) = isFinite a && isFinite b.
Proof. by destruct a, b. Qed.

Lemma isFinite_foldl_add l : ∀ a,
  isFinite (foldl add a l) = isFinite a && forallb isFinite l.
Proof.
  induction l as [|x l IH]; intros a; cbn.
  - by rewrite andb_true_r.
  - by rewrite IH, isFinite_add, andb_assoc.
Qed.

Lemma isFinite_sum l : isFinite (sum l) = forallb isFinite l.
Proof. unfold sum. by rewrite isFinite_foldl_add. Qed.

Lemma of_nat_positive n : 0 < n → (inject_Z (Z.of_nat n) ?= 0)%Q = Gt.
Proof.
  intros Hn. apply Qgt_alt. change 0%Q with (inject_Z 0).
  rewrite <- Zlt_Qlt. lia.
Qed.

(** Dividing by a positive count keeps a non-finite value non-finite. *)
Lemma div_count_nonfinite a n :
  0 < n → isFinite a = false → isFinite (a / of_nat n) = false.
Proof.
  intros Hn Ha. destruct a; try done; cbn;
    by rewrite (of_nat_positive n Hn).
Qed.

(** The waste percentage of a serving of zero. *)
Lemma zero_served_nonfinite (q : Q) (c : number) :
  (q == 0)%Q → isFinite ((Fin q - c) / Fin q * Fin 100) = false.
Proof.
  intros Hq. apply Qeq_bool_iff in Hq as Hb.
  destruct c as [x| | |]; cbn; rewrite ?Hb; try done.
  - destruct (q + - x ?= 0)%Q; done.
  - apply Qeq_alt in Hq. by rewrite Hq.
  - apply Qeq_alt in Hq. by rewrite Hq.
Qed.

(** [Math.max(a, b)] is at least [b], unless it is [NaN]. *)
Lemma Qcompare_same (y : Q) : (y ?= y)%Q = Eq.
Proof. apply Qeq_alt. reflexivity. Qed.

Lemma max_ge_right a b : max a b ≠ NaN → ge (max a b) b = true.
Proof.
  destruct a as [x| | |], b as [y| | |]; cbn; try done; intros _.
  - destruct (y ?= x)%Q eqn:Hc; cbn.
    + apply Qeq_alt in Hc. symmetry in Hc. apply Qeq_alt in Hc.
      by rewrite Hc.
    + apply Qlt_alt in Hc. apply Qgt_alt in Hc. by rewrite Hc.
    + by rewrite Qcompare_same.
  - by rewrite Qcompare_same.
Qed.

End NumberFacts.

(** * Properties of the cooking session *)
Module CookingSpec.
Import Cooking.

(** ** Arrays *)

Lemma array_set_end {A} (l : list (option A)) (v : A) :
  array_set l (length l) v = l ++ [Some v].
Proof.
  unfold array_set. destruct (decide (length l < length l)); [lia|].
  by rewrite Nat.sub_diag.
Qed.

Lemma array_set_inside {A} (l : list (option A)) (i : nat) (v : A) :
  i < length l → array_set l i v = <[i := Some v]> l.
Proof. intros Hi. unfold array_set. by destruct (decide (i < length l)). Qed.

Lemma array_set_keeps_filled {A} (l : list (option A)) (i : nat) (v : A) :
  i ≤ length l → Forall is_Some l → Forall is_Some (array_set l i v).
Proof.
  intros Hi Hl. destruct (decide (i < length l)) as [Hlt|Hge].
  - rewrite array_set_inside by done.
    apply Forall_insert; [done | by eexists].
  - replace i with (length l) by lia. rewrite array_set_end.
    apply Forall_app. split; [done|]. repeat constructor. by eexists.
Qed.

(** ** The timing records follow the step index *)

Lemma new_tracking data now : tracking (new data now).
Proof. split; [done | constructor]. Qed.

Lemma start_ok now s :
  status s = initialized →
  start now s =
    (Normal (),
     set_updatedAt (set_startTime (set_status s in_progress) (Some now))
       now).
Proof. intros Hs. unfold start. rewrite Hs. by case_decide. Qed.

(** A call below the last step opens a record and moves on by one. *)
Lemma nextStep_advances now s :
  status s = in_progress →
  currentStep s < length (instructions (recipe s)) →
  tracking s →
  ∃ i s',
    nextStep now s = (Normal (Info i), s')
    ∧ infoCurrentStep i = S (currentStep s)
    ∧ status s' = in_progress
    ∧ currentStep s' = S (currentStep s)
    ∧ recipe s' = recipe s
    ∧ tracking s'.
Proof.
  intros Hst Hlt [Hlen Hfill]. unfold nextStep.
  destruct (decide (status s ≠ in_progress)) as [|_]; [done|].
  set (s1 := if decide (0 < currentStep s) then _ else s).
  assert (Hs1 : status s1 = status s ∧ currentStep s1 = currentStep s
                ∧ recipe s1 = recipe s
                ∧ length (stepTimings s1) = currentStep s
                ∧ Forall is_Some (stepTimings s1)).
  { subst s1. destruct (decide (0 < currentStep s)) as [Hpos|]; cbn.
    - repeat split; try done.
      + rewrite array_set_inside by lia. by rewrite length_insert.
      + apply array_set_keeps_filled; [lia | done].
    - done. }
  destruct Hs1 as (Hs1st & Hs1c & Hs1r & Hs1l & Hs1f).
  destruct (decide (length (instructions (recipe s1)) ≤ currentStep s1))
    as [Hge|_]; [rewrite Hs1c, Hs1r in Hge; lia|].
  unfold getCurrentStepInfo. cbn.
  destruct (decide (S (currentStep s1) = 0)); [lia|].
  destruct (decide (length (instructions (recipe s1))
                    < S (currentStep s1))) as [Hbad|_];
    [rewrite Hs1c, Hs1r in Hbad; lia|].
  eexists _, _. split; [reflexivity|]. cbn.
  rewrite Hs1c. split_and!; try congruence. split; cbn.
  - rewrite <- Hs1l at 1. rewrite array_set_end, length_app. cbn. lia.
  - apply array_set_keeps_filled; [lia | done].
Qed.

(** A call at the last step index closes the session. *)
Lemma nextStep_completes now s :
  status s = in_progress →
  currentStep s = length (instructions (recipe s)) →
  tracking s →
  ∃ r s',
    nextStep now s = (Normal (Completed r), s')
    ∧ status s' = completed
    ∧ currentStep s' = currentStep s
    ∧ recipe s' = recipe s
    ∧ summaryStepTimings r = stepTimings s'
    ∧ tracking s'.
Proof.
  intros Hst Heq [Hlen Hfill]. unfold nextStep.
  destruct (decide (status s ≠ in_progress)) as [|_]; [done|].
  set (s1 := if decide (0 < currentStep s) then _ else s).
  assert (Hs1 : currentStep s1 = currentStep s ∧ recipe s1 = recipe s
                ∧ length (stepTimings s1) = currentStep s
                ∧ Forall is_Some (stepTimings s1)).
  { subst s1. destruct (decide (0 < currentStep s)) as [Hpos|]; cbn.
    - repeat split; try done.
      + rewrite array_set_inside by lia. by rewrite length_insert.
      + apply array_set_keeps_filled; [lia | done].
    - done. }
  destruct Hs1 as (Hs1c & Hs1r & Hs1l & Hs1f).
  destruct (decide (length (instructions (recipe s1)) ≤ currentStep s1))
    as [_|Hlt]; [|rewrite Hs1c, Hs1r in Hlt; lia].
  cbn. eexists _, _. split; [reflexivity|]. cbn.
  split_and!; try congruence. split; cbn; congruence.
Qed.

(** [n] calls from step [c] reach step [c + n], still in progress. *)
Lemma advance_many times : ∀ s,
  status s = in_progress →
  tracking s →
  currentStep s + length times ≤ length (instructions (recipe s)) →
  let s' := run (CallNextStep <$> times) s in
  status s' = in_progress
  ∧ currentStep s' = currentStep s + length times
  ∧ recipe s' = recipe s
  ∧ tracking s'.
Proof.
  induction times as [|t times IH]; intros s Hst Htr Hle.
  - cbn. split_and!; [done | lia | done | done].
  - cbn in Hle. cbn.
    assert (Hlt : currentStep s < length (instructions (recipe s))) by lia.
    destruct (nextStep_advances t s Hst Hlt Htr)
      as (i & s1 & Hcall & _ & Hst1 & Hc1 & Hr1 & Htr1).
    rewrite Hcall. cbn.
    assert (Hle1 : currentStep s1 + length times
                   ≤ length (instructions (recipe s1)))
      by (rewrite Hc1, Hr1; lia).
    destruct (IH s1 Hst1 Htr1 Hle1) as (Hst' & Hc' & Hr' & Htr').
    unfold run in *. split_and!; [done | lia | congruence | done].
Qed.

(** ** Every call keeps the recipe and the bound on the step index *)

(** Open the status checks of the guarded methods, one case per
    branch. *)
Ltac by_guards :=
  unfold start, pause, resume, nextStep; repeat case_decide; cbn in *.

Lemma nextStep_recipe now s : recipe (nextStep now s).2 = recipe s.
Proof. by_guards; done. Qed.

Lemma nextStep_bound now s :
  currentStep s ≤ length (instructions (recipe s)) →
  currentStep (nextStep now s).2 ≤ length (instructions (recipe s)).
Proof. intros Hb. by_guards; lia. Qed.

Lemma exec_recipe c s : recipe (exec c s) = recipe s.
Proof. destruct c; cbn; by_guards; done. Qed.

Lemma exec_bound c s :
  currentStep s ≤ length (instructions (recipe s)) →
  currentStep (exec c s) ≤ length (instructions (recipe s)).
Proof. intros Hb. destruct c; cbn; by_guards; lia. Qed.

Lemma run_bound cs : ∀ s,
  currentStep s ≤ length (instructions (recipe s)) →
  currentStep (run cs s) ≤ length (instructions (recipe s)).
Proof.
  induction cs as [|c cs IH]; intros s Hb; [done|].
  cbn. rewrite <- (exec_recipe c s). apply IH.
  rewrite exec_recipe. by apply exec_bound.
Qed.

(** ** Terminal sessions *)

Lemma exec_terminal c s :
  terminal (status s) = true →
  currentStep (exec c s) = currentStep s
  ∧ terminal (status (exec c s)) = true
  ∧ (status s = aborted → status (exec c s) = aborted)
  ∧ (isAbort c = false → status (exec c s) = status s).
Proof.
  intros Ht. destruct c; cbn; by_guards; try done; destruct (status s); done.
Qed.

Lemma run_terminal cs : ∀ s,
  terminal (status s) = true →
  currentStep (run cs s) = currentStep s
  ∧ terminal (status (run cs s)) = true
  ∧ (status s = aborted → status (run cs s) = aborted)
  ∧ (forallb (λ c, negb (isAbort c)) cs = true →
     status (run cs s) = status s).
Proof.
  induction cs as [|c cs IH]; intros s Ht; [done|].
  destruct (exec_terminal c s Ht) as (Hc & Ht' & Ha & Hn).
  destruct (IH (exec c s) Ht') as (Hc' & Ht'' & Ha' & Hn').
  cbn. unfold run in *. split_and!; [congruence | done | auto |].
  intros [Hna Hrest]%andb_prop. apply negb_true_iff in Hna.
  rewrite Hn', Hn; done.
Qed.

(** ** The claims about the session *)




(** C2, as stated, fails: [abort] checks nothing, so a completed session
    can still be aborted, which changes its state. *)
Lemma abort_changes_completed_session :
  status oneStepCompleted = completed
  ∧ status (exec (CallAbort None 4) oneStepCompleted) = aborted
  ∧ status (exec (CallAbort None 4) oneStepCompleted)
    ≠ status oneStepCompleted.
Proof. split_and!; vm_compute; [reflexivity | reflexivity | discriminate]. Qed.

(** C2, amended: over every sequence of calls the step index of a
    session stays within 0..instructions.length; once the session is
    completed or aborted no call changes the step index, the state stays
    completed or aborted, an aborted session stays aborted, and only
    [abort] changes the state (from completed to aborted). *)
Theorem step_index_bounded_terminal_closed :
  (∀ data t0 cs,
     currentStep (run cs (new data t0))
     ≤ length (instructions (dataRecipe data)))
  ∧ (∀ s cs,
       terminal (status s) = true →
       currentStep (run cs s) = currentStep s
       ∧ terminal (status (run cs s)) = true
       ∧ (status s = aborted → status (run cs s) = aborted)
       ∧ (forallb (λ c, negb (isAbort c)) cs = true →
          status (run cs s) = status s)).
Proof.
  split.
  - intros data t0 cs.
    apply (run_bound cs (new data t0)). cbn. lia.
  - intros s cs. apply run_terminal.
Qed.

Lemma step_index_bounded_terminal_closed_witness :
  currentStep (run [CallStart 5; CallPause 6; CallNextStep 7]
                 oneStepCompleted) = 1
  ∧ status (run [CallStart 5; CallPause 6; CallNextStep 7]
              oneStepCompleted) = completed.
Proof.
  destruct step_index_bounded_terminal_closed as [_ Hterm].
  destruct (Hterm oneStepCompleted
              [CallStart 5; CallPause 6; CallNextStep 7])
    as (Hc & _ & _ & Hn); [reflexivity|].
  split; [exact Hc | apply Hn; reflexivity].
Defined.

(** C3: [start], [pause], [resume] and [nextStep] throw a
    [CookingProcessError] exactly when the session is not in the state
    they start from (initialized, in progress, paused, in progress), and
    the call that throws leaves the whole session, so its state and step
    index, as it was. *)
Theorem guarded_call_throws_iff_illegal g now s :
  (isThrow (callGuarded g now s).1 = true ↔ status s ≠ legalSource g)
  ∧ (∀ e s',
       callGuarded g now s = (Throw e, s') →
       errName e = "CookingProcessError" ∧ s' = s).
Proof.
  destruct g; cbn; unfold start, pause, resume, nextStep.
  1-3: case_decide; cbn; (split; [split; [done | by intros] |]);
       intros e s' [= <- <-]; done.
  case_decide as Hst; cbn.
  - split; [done|]. by intros e s' [= <- <-].
  - repeat case_decide; cbn;
      (split; [split; [done | by intros] | by intros e s' [=]]).
Qed.

Lemma guarded_call_throws_iff_illegal_witness :
  isThrow (pause 1 (new oneStepData 0)).1 = true
  ∧ ∀ e s',
      pause 1 (new oneStepData 0) = (Throw e, s') →
      errName e = "CookingProcessError" ∧ s' = new oneStepData 0.
Proof.
  destruct (guarded_call_throws_iff_illegal GPause 1 (new oneStepData 0))
    as [Hiff Hsame].
  split; [apply Hiff; simpl; discriminate|].
  intros e s' Hcall. exact (Hsame e s' Hcall).
Defined.

(** C4: on the recipe [{step:"a", timing:5}, {step:"b", timing:10}],
    after [start] the first [nextStep] returns the info of step 1, the
    second the info of step 2, the third the completed summary with
    exactly two timing records, and a fourth throws and changes
    nothing. *)
Theorem two_step_scenario sid rid name n t0 t1 t2 t3 t4 t5 :
  ∃ s0 s1 s2 s3 i1 i2 r msg,
    start t1 (new (twoStepData sid rid name n) t0) = (Normal (), s0)
    ∧ nextStep t2 s0 = (Normal (Info i1), s1)
    ∧ infoCurrentStep i1 = 1 ∧ currentInstruction i1 = Some stepA
    ∧ nextStep t3 s1 = (Normal (Info i2), s2)
    ∧ infoCurrentStep i2 = 2 ∧ currentInstruction i2 = Some stepB
    ∧ nextStep t4 s2 = (Normal (Completed r), s3)
    ∧ summaryStatus r = completed
    ∧ length (summaryStepTimings r) = 2
    ∧ Forall is_Some (summaryStepTimings r)
    ∧ status s3 = completed
    ∧ nextStep t5 s3 = (Throw (CookingProcessError msg), s3).
Proof.
  do 8 eexists.
  split_and!.
  all: try (lazy -[Z.sub Z.eqb Z.mul]; reflexivity).
  cbn. repeat constructor; by eexists.
Qed.

End CookingSpec.

(** * Properties of the consumption profile *)
Module ConsumptionSpec.
Import JSNumber Consumption NumberFacts.

(** ** What a recorded consumption changes *)

Lemma checkForPortionAdjustment_keeps i now p :
  wasteTracking (checkForPortionAdjustment i now p) = wasteTracking p
  ∧ currentPortions (checkForPortionAdjustment i now p)
    = currentPortions p
  ∧ portionHistory (checkForPortionAdjustment i now p) = portionHistory p
  ∧ overallWasteRate (checkForPortionAdjustment i now p)
    = overallWasteRate p
  ∧ adjustmentSettings (checkForPortionAdjustment i now p)
    = adjustmentSettings p.
Proof.
  unfold checkForPortionAdjustment.
  destruct (wasteTracking p !! i ≫= recentAverage) as [a|]; [|done].
  by destruct (gt a _).
Qed.

Lemma recordConsumption_window i served consumed ts now p :
  wasteTracking (recordConsumption i served consumed ts now p).2
  = <[ i := pushWindow (default [] (wasteTracking p !! i))
              ((served - consumed) / served * Fin 100)%num ]>
      (wasteTracking p).
Proof.
  unfold recordConsumption. cbn.
  by rewrite (proj1 (checkForPortionAdjustment_keeps _ _ _)).
Qed.

Lemma recordConsumption_rate i served consumed ts now p :
  overallWasteRate (recordConsumption i served consumed ts now p).2
  = overallRate
      (wasteTracking (recordConsumption i served consumed ts now p).2).
Proof.
  unfold recordConsumption. cbn.
  match goal with
  | |- context [checkForPortionAdjustment ?j ?n ?q] =>
      destruct (checkForPortionAdjustment_keeps j n q)
        as (Hwin & _ & _ & Hrate & _)
  end.
  by rewrite Hwin, Hrate.
Qed.

Lemma recordConsumption_history i served consumed ts now p :
  portionHistory (recordConsumption i served consumed ts now p).2
  = portionHistory p
    ++ [(recordConsumption i served consumed ts now p).1].
Proof.
  unfold recordConsumption. cbn.
  by rewrite (proj1 (proj2 (proj2 (checkForPortionAdjustment_keeps _ _ _)))).
Qed.

Lemma recordConsumption_portions i served consumed ts now p :
  currentPortions (recordConsumption i served consumed ts now p).2
  = currentPortions p.
Proof.
  unfold recordConsumption. cbn.
  by rewrite (proj1 (proj2 (checkForPortionAdjustment_keeps _ _ _))).
Qed.

(** ** The rolling window *)

Lemma pushWindow_bounded l w :
  length l ≤ 30 → length (pushWindow l w) ≤ 30.
Proof.
  intros Hl. unfold pushWindow.
  case_decide as Hlen; rewrite ?length_drop, length_app in *; cbn in *; lia.
Qed.

Lemma pushWindow_full l w :
  length l = 30 → pushWindow l w = drop 1 l ++ [w].
Proof.
  intros Hl. unfold pushWindow.
  case_decide as Hlen; [|rewrite length_app in Hlen; cbn in Hlen; lia].
  destruct l; [done|]. by cbn; rewrite !drop_0.
Qed.

Lemma pushWindow_last l w : ∃ pre, pushWindow l w = pre ++ [w].
Proof.
  unfold pushWindow. case_decide as Hlen; [|by eexists].
  destruct l as [|a l]; [cbn in Hlen; lia|].
  exists l. by cbn; rewrite drop_0.
Qed.

Lemma consume_bounded c p : windowsBounded p → windowsBounded (consume c p).
Proof.
  unfold windowsBounded, consume. intros Hb.
  rewrite recordConsumption_window.
  apply map_Forall_insert_2; [|done].
  apply pushWindow_bounded.
  destruct (wasteTracking p !! cIngredient c) as [l|] eqn:Hl; cbn; [|lia].
  by apply (Hb _ _ Hl).
Qed.

Lemma run_bounded cs : ∀ p, windowsBounded p → windowsBounded (run cs p).
Proof.
  induction cs as [|c cs IH]; intros p Hb; [done|].
  apply IH. by apply consume_bounded.
Qed.

Lemma new_bounded data now :
  dataWasteTracking data = None → windowsBounded (new data now).
Proof.
  intros Hd. unfold windowsBounded. cbn. rewrite Hd. apply map_Forall_empty.
Qed.

Lemma fresh_profile_bounded data now cs :
  dataWasteTracking data = None → windowsBounded (run cs (new data now)).
Proof. intros Hd. apply run_bounded. by apply new_bounded. Qed.

Lemma pushWindow_lastN all w :
  pushWindow (lastN 30 all) w = lastN 30 (all ++ [w]).
Proof.
  unfold pushWindow, lastN. rewrite !length_app, length_drop. cbn.
  destruct (decide (length all < 30)) as [Hshort|Hlong].
  - replace (length all - 30) with 0 by lia.
    replace (length all + 1 - 30) with 0 by lia.
    rewrite !drop_0. case_decide; [lia | done].
  - case_decide; [|lia].
    rewrite !drop_app_le by (rewrite ?length_drop; lia).
    rewrite drop_drop. f_equal. f_equal. lia.
Qed.

(** The window of an ingredient is the last 30 of its waste percentages,
    in the order of the calls. *)
Lemma window_is_last_thirty i cs : ∀ p all,
  default [] (wasteTracking p !! i) = lastN 30 all →
  default [] (wasteTracking (run cs p) !! i)
  = lastN 30 (all ++ percentagesOf i cs).
Proof.
  induction cs as [|c cs IH]; intros p all Hp.
  - cbn. by rewrite app_nil_r.
  - change (run (c :: cs) p) with (run cs (consume c p)).
    unfold percentagesOf. rewrite filter_cons.
    fold (percentagesOf i cs).
    destruct (decide (cIngredient c = i)) as [<-|Hne].
    + rewrite fmap_cons, cons_middle, app_assoc. apply IH.
      unfold consume. rewrite recordConsumption_window, lookup_insert_eq.
      cbn. rewrite Hp. apply pushWindow_lastN.
    + apply IH. unfold consume.
      rewrite recordConsumption_window, lookup_insert_ne by done. done.
Qed.



(** C6: when the settings require consultation and the call is not
    approved, [applyPortionAdjustment] throws the consultation error and
    leaves the profile, so the current portion, as it was; approved, or
    with consultation not required, it overwrites the current portion
    and logs the old value, the new value, their difference and the
    time. *)
Theorem adjustment_needs_approval i portion approved now p :
  (consultationRequired (adjustmentSettings p) = true →
   approved = false →
   applyPortionAdjustment i portion approved now p
   = (Throw (mkError "Error"
               "User consultation required for portion adjustment"), p))
  ∧ (consultationRequired (adjustmentSettings p) = false
     ∨ approved = true →
     ∃ a p',
       applyPortionAdjustment i portion approved now p = (Normal a, p')
       ∧ currentPortions p' = <[ i := portion ]> (currentPortions p)
       ∧ oldPortion a = or_default (currentPortions p !! i) (Fin 100)
       ∧ newPortion a = portion
       ∧ change a = (portion - oldPortion a)%num
       ∧ appliedAt a = now
       ∧ console p'
         = console p
           ++ [mkLogEvent "portion_adjustment_applied" (AdjustmentData a)]).
Proof.
  unfold applyPortionAdjustment. split.
  - by intros -> ->.
  - intros Hok.
    assert (Hgo : consultationRequired (adjustmentSettings p)
                  && negb approved = false)
      by (destruct Hok as [-> | ->]; [done | apply andb_false_r]).
    rewrite Hgo. by eexists _, _.
Qed.

Lemma adjustment_needs_approval_witness :
  isThrow (applyPortionAdjustment "lettuce" (Fin 60) false
             (sampleDate 1) fresh).1 = true
  ∧ ∃ a p',
      applyPortionAdjustment "lettuce" (Fin 60) true (sampleDate 1) fresh
      = (Normal a, p')
      ∧ currentPortions p' !! "lettuce" = Some (Fin 60)
      ∧ oldPortion a = Fin 100.
Proof.
  split.
  - rewrite (proj1 (adjustment_needs_approval "lettuce" (Fin 60) false
                      (sampleDate 1) fresh));
      reflexivity.
  - destruct (proj2 (adjustment_needs_approval "lettuce" (Fin 60) true
                       (sampleDate 1) fresh))
      as (a & p' & Hcall & Hcur & Hold & _); [right; reflexivity|].
    exists a, p'. split; [exact Hcall|].
    split; [rewrite Hcur; reflexivity | rewrite Hold; reflexivity].
Defined.




(** ** Non-finite entries in a window *)

Lemma forallb_false_elem {A} (f : A → bool) (l : list A) (x : A) :
  x ∈ l → f x = false → forallb f l = false.
Proof.
  intros Hin Hx. induction l as [|y l IH]; [by apply elem_of_nil in Hin|].
  cbn. apply elem_of_cons in Hin as [<-|Hin].
  - by rewrite Hx.
  - rewrite IH by done. apply andb_false_r.
Qed.

Lemma wasteTotals_fold (kvs : list (string * list number)) : ∀ acc,
  isFinite
    (foldl (fun a kv => ((a.1 + sum kv.2)%num, a.2 + length kv.2))
       acc kvs).1
  = isFinite acc.1 && forallb (fun kv => forallb isFinite kv.2) kvs
  ∧ acc.2
    ≤ (foldl (fun a kv => ((a.1 + sum kv.2)%num, a.2 + length kv.2))
         acc kvs).2
  ∧ ∀ kv, kv ∈ kvs →
      length kv.2
      ≤ (foldl (fun a kv => ((a.1 + sum kv.2)%num, a.2 + length kv.2))
           acc kvs).2.
Proof.
  induction kvs as [|kv kvs IH]; intros acc; cbn.
  - split_and!; [by rewrite andb_true_r | done |].
    intros kv Hin. by apply elem_of_nil in Hin.
  - destruct (IH ((acc.1 + sum kv.2)%num, acc.2 + length kv.2))
      as (Hfin & Hle & Hall). cbn in *.
    split_and!.
    + by rewrite Hfin, isFinite_add, isFinite_sum, andb_assoc.
    + lia.
    + intros kv' [->|Hin]%elem_of_cons; [lia | by apply Hall].
Qed.

(** A non-finite entry in any window makes the overall rate
    non-finite. *)
Lemma overallRate_nonfinite (m : gmap string (list number)) i l x :
  m !! i = Some l → x ∈ l → isFinite x = false →
  isFinite (overallRate m) = false.
Proof.
  intros Hl Hx Hbad. unfold overallRate, wasteTotals.
  destruct (wasteTotals_fold (map_to_list m) (Fin 0, 0))
    as (Hfin & _ & Hall).
  destruct (foldl _ _ _) as [totalWaste totalRecords]. cbn in *.
  assert (Hin : (i, l) ∈ map_to_list m) by by apply elem_of_map_to_list.
  assert (Hlen : 0 < length l)
    by (destruct l; [by apply elem_of_nil in Hx | cbn; lia]).
  specialize (Hall _ Hin). cbn in Hall.
  rewrite (forallb_false_elem _ _ (i, l) Hin) in Hfin
    by (cbn; by apply (forallb_false_elem _ _ x)).
  case_decide; [|lia]. by apply div_count_nonfinite.
Qed.

Lemma tainted_rate i k p :
  tainted i k p → isFinite (overallRate (wasteTracking p)) = false.
Proof.
  intros (pre & x & post & Hl & Hbad & _).
  apply (overallRate_nonfinite _ i _ x Hl); [|done].
  apply elem_of_app. right. apply elem_of_cons. by left.
Qed.

Lemma pushWindow_keeps pre x post w :
  length post < 29 →
  ∃ pre', pushWindow (pre ++ x :: post) w = pre' ++ x :: (post ++ [w]).
Proof.
  intros Hk. unfold pushWindow. case_decide as Hlen.
  - destruct pre as [|a pre].
    + cbn in Hlen. rewrite length_app in Hlen. cbn in Hlen. lia.
    + exists pre. cbn. by rewrite drop_0, <- app_assoc.
  - exists pre. by rewrite <- app_assoc.
Qed.

Lemma consume_tainted_same c i k p :
  cIngredient c = i → k < 29 → tainted i k p →
  tainted i (S k) (consume c p).
Proof.
  intros <- Hk (pre & x & post & Hl & Hbad & Hlen).
  unfold tainted, consume. rewrite recordConsumption_window.
  rewrite lookup_insert_eq, Hl. cbn.
  destruct (pushWindow_keeps pre x post
              ((cServed c - cConsumed c) / cServed c * Fin 100)%num)
    as [pre' Hpush]; [lia|].
  exists pre', x, (post ++ [((cServed c - cConsumed c) / cServed c
                             * Fin 100)%num]).
  rewrite Hpush, length_app. cbn. split_and!; [done | done | lia].
Qed.

Lemma consume_tainted_other c i k p :
  cIngredient c ≠ i → tainted i k p → tainted i k (consume c p).
Proof.
  intros Hne (pre & x & post & Hl & Hbad & Hlen).
  unfold tainted, consume. rewrite recordConsumption_window.
  rewrite lookup_insert_ne by done. by exists pre, x, post.
Qed.

Lemma run_tainted i cs : ∀ k p,
  tainted i k p → k + recordsOf i cs ≤ 29 →
  tainted i (k + recordsOf i cs) (run cs p).
Proof.
  induction cs as [|c cs IH]; intros k p Ht Hle.
  - cbn. by rewrite Nat.add_0_r.
  - unfold recordsOf in *. rewrite filter_cons in *. cbn.
    destruct (decide (cIngredient c = i)) as [Heq|Hne]; cbn in *.
    + replace (k + S (length (filter (fun c => cIngredient c = i) cs)))
        with (S k + length (filter (fun c => cIngredient c = i) cs))
        by lia.
      apply IH; [apply consume_tainted_same; [done | lia | done] | lia].
    + apply IH; [by apply consume_tainted_other | done].
Qed.

Lemma run_rate cs : ∀ p,
  overallWasteRate p = overallRate (wasteTracking p) →
  overallWasteRate (run cs p) = overallRate (wasteTracking (run cs p)).
Proof.
  induction cs as [|c cs IH]; intros p Hp; [done|].
  cbn. apply IH. apply recordConsumption_rate.
Qed.

(** While the non-finite entry is among the last five, so is the
    average that [checkForPortionAdjustment] takes. *)
Lemma tainted_recent i k p l a :
  tainted i k p → k ≤ 4 →
  wasteTracking p !! i = Some l → recentAverage l = Some a →
  isFinite a = false.
Proof.
  intros (pre & x & post & Hl & Hbad & Hlen) Hk Hl'.
  rewrite Hl in Hl'. injection Hl' as <-.
  unfold recentAverage. case_decide as Hfive; [done|].
  intros [= <-]. apply div_count_nonfinite.
  - unfold lastN. rewrite length_drop. lia.
  - rewrite isFinite_sum. apply (forallb_false_elem _ _ x); [|done].
    unfold lastN. rewrite length_app. cbn.
    rewrite drop_app_le by lia.
    apply elem_of_app. right. apply elem_of_cons. by left.
Qed.




(** ** Suggestions *)

(** The suggestion never goes below half the current portion. *)
Lemma suggestion_at_least_half i averageWaste now p :
  suggestedPortion (suggestPortionAdjustment i averageWaste now p).1 ≠ NaN →
  ge (suggestedPortion (suggestPortionAdjustment i averageWaste now p).1)
     (currentPortion (suggestPortionAdjustment i averageWaste now p).1
      * Fin (1 # 2))%num
  = true.
Proof. cbn. apply max_ge_right. Qed.

(** A suggestion is logged and nothing else changes: the current
    portions stay as they were. *)
Lemma suggestion_not_applied i averageWaste now p :
  currentPortions (suggestPortionAdjustment i averageWaste now p).2
  = currentPortions p
  ∧ console (suggestPortionAdjustment i averageWaste now p).2
    = console p
      ++ [mkLogEvent "portion_adjustment_suggested"
            (SuggestionData
               (suggestPortionAdjustment i averageWaste now p).1)].
Proof. done. Qed.

(** A check suggests only on five entries or more whose last five
    average above the threshold. *)
Lemma check_suggests_above_threshold i now p :
  console (checkForPortionAdjustment i now p) ≠ console p →
  ∃ l a,
    wasteTracking p !! i = Some l
    ∧ 5 ≤ length l
    ∧ a = (sum (lastN 5 l) / of_nat (length (lastN 5 l)))%num
    ∧ gt a (adjustmentThreshold (adjustmentSettings p) * Fin 100)%num
      = true
    ∧ checkForPortionAdjustment i now p
      = (suggestPortionAdjustment i a now p).2.
Proof.
  unfold checkForPortionAdjustment.
  destruct (wasteTracking p !! i) as [l|]; cbn; [|done].
  unfold recentAverage. case_decide as Hfive; [done|].
  destruct (gt _ _) eqn:Hgt; [|done].
  intros _. exists l, (sum (lastN 5 l) / of_nat (length (lastN 5 l)))%num.
  split_and!; [done | lia | done | done | done].
Qed.

(** C8 at a failing input: with a learning rate of one half and the
    default maximum adjustment of 20 percent, five servings of 100 g
    with 60 percent waste log one suggestion, of 70 g: a reduction of
    30 percent, above the configured maximum.  The suggestion is not
    below half the current portion and it is not applied. *)
Theorem suggestion_exceeds_max_adjustment :
  ∃ a,
    console eagerAfterFive
    = [mkLogEvent "portion_adjustment_suggested" (SuggestionData a)]
    ∧ currentPortion a = Fin 100
    ∧ ge (suggestedPortion a) (Fin 70) = true
    ∧ ge (Fin 70) (suggestedPortion a) = true
    ∧ ge (reductionPercentage a) (Fin 30) = true
    ∧ gt (reductionPercentage a)
         (maxAdjustmentPerCycle (adjustmentSettings eagerAfterFive)
          * Fin 100)%num
      = true
    ∧ ge (suggestedPortion a) (currentPortion a * Fin (1 # 2))%num = true
    ∧ currentPortions eagerAfterFive = ∅.
Proof.
  eexists. split; [vm_compute; reflexivity|].
  split_and!; vm_compute; reflexivity.
Qed.

(** ** Demand prediction *)



End ConsumptionSpec.

(** * More properties of the cooking session *)
Module CookingMoreSpec.
Import Cooking CookingInvariants CookingSpec.

(** ** Pausing *)

Lemma pause_then_resume t1 t2 s :
  status s = in_progress →
  pause t1 s
  = (Normal (), set_updatedAt (set_pausedTime (set_status s paused) t1) t1)
  ∧ resume t2 (pause t1 s).2
    = (Normal (), set_updatedAt (set_pausedTime s 0) t2).
Proof.
  intros Hs. unfold pause. rewrite Hs. case_decide; [done|].
  split; [done|]. unfold resume. cbn. case_decide; [done|].
  destruct s. cbn in *. by subst.
Qed.

(** X1: pausing a session in progress and resuming it gives the session
    back: state, step index, timings and every other field are as before
    the pause, but for [updatedAt] and a [pausedTime] reset to 0. *)
Theorem pause_resume_round_trip t1 t2 s :
  status s = in_progress →
  (pause t1 s).1 = Normal ()
  ∧ status (pause t1 s).2 = paused
  ∧ resume t2 (pause t1 s).2
    = (Normal (), set_updatedAt (set_pausedTime s 0) t2).
Proof.
  intros Hs. destruct (pause_then_resume t1 t2 s Hs) as [Hp Hr].
  split_and!; [by rewrite Hp | by rewrite Hp | done].
Qed.

Lemma pause_resume_round_trip_witness :
  resume 5 (pause 4 oneStepAdvanced).2
  = (Normal (), set_updatedAt (set_pausedTime oneStepAdvanced 0) 5).
Proof.
  apply (pause_resume_round_trip 4 5 oneStepAdvanced). reflexivity.
Defined.

(** X2: the time a session spends paused is not taken off a step: the
    call to [nextStep] after a pause and a resume returns and stores what
    it would have without them, the same durations included. *)
Theorem paused_time_not_deducted t1 t2 now s :
  status s = in_progress →
  pausedTime s = 0%Z →
  nextStep now (resume t2 (pause t1 s).2).2 = nextStep now s.
Proof.
  intros Hs Hp.
  destruct (pause_then_resume t1 t2 s Hs) as [_ ->].
  cbn [snd]. destruct s. cbn in *. subst.
  unfold nextStep. cbn. repeat case_decide; try done.
Qed.

Lemma paused_time_not_deducted_witness :
  nextStep 9 (resume 5 (pause 4 oneStepAdvanced).2).2
  = nextStep 9 oneStepAdvanced.
Proof.
  apply (paused_time_not_deducted 4 5 9 oneStepAdvanced); reflexivity.
Defined.

(** ** The timing records of a reachable session *)

Lemma wellTimed_new data now : wellTimed (new data now).
Proof.
  split_and!; cbn; try done; lia.
Qed.

(** A call that leaves the timings, the step index, the recipe and the
    start time alone, and does not complete the session, keeps the
    shape. *)
Lemma wellTimed_frame s s' :
  stepTimings s' = stepTimings s →
  currentStep s' = currentStep s →
  recipe s' = recipe s →
  startTime s' = startTime s ∨ currentStep s = 0 →
  (status s' = initialized → status s = initialized) →
  (status s' = completed → status s = completed) →
  (status s' = in_progress ∨ status s' = paused →
   status s = in_progress ∨ status s = paused ∨ currentStep s = 0) →
  wellTimed s → wellTimed s'.
Proof.
  intros Ht Hc Hr Hstart Hinit Hcomp Hrun (Hlen & Hzero & Hrec & Hadj).
  unfold wellTimed. rewrite Ht, Hc, Hr. split_and!; [done | auto | | done].
  intros i Hi.
  destruct (Hrec i Hi) as (r & Hl & Hix & Hs & Hexp & Hclosed & Hopen).
  exists r. split_and!; [done | done | done | done | |].
  - intros Hcl. unfold startTimeValue.
    destruct Hstart as [->|Hz]; [|lia].
    apply Hclosed. destruct Hcl as [?|?]; [by left | right; auto].
  - intros Hlast Hst. destruct (Hrun Hst) as [?|[?|?]]; [auto | auto | lia].
Qed.

(** After the first part of [nextStep], which closes the record of the
    step that ends, every record is closed. *)
Lemma close_last_record now s :
  wellTimed s → status s = in_progress →
  let l1 :=
    if decide (0 < currentStep s) then
      array_set (stepTimings s) (currentStep s - 1)
        (closeTiming (array_get (stepTimings s) (currentStep s - 1)) now
           (now - timingBase s (currentStep s - 1)))
    else stepTimings s in
  length l1 = currentStep s
  ∧ (∀ i, i < currentStep s →
       ∃ r, l1 !! i = Some (Some r)
            ∧ stepIndex r = Some i
            ∧ expectedDuration r = expectedMs (instructions (recipe s) !! i)
            ∧ closedAt (startTimeValue s) r
            ∧ (S i = currentStep s → stepEndTime r = Some now))
  ∧ (∀ i r r', l1 !! i = Some (Some r) → l1 !! S i = Some (Some r') →
       stepEndTime r = stepStartTime r').
Proof.
  intros (Hlen & Hzero & Hrec & Hadj) Hst l1. subst l1.
  destruct (decide (0 < currentStep s)) as [Hpos|Hnone].
  2: { split_and!; [done | intros i Hi; lia | done]. }
  rewrite array_set_inside by lia.
  destruct (Hrec (currentStep s - 1) ltac:(lia))
    as (r0 & Hl0 & Hix0 & _ & Hexp0 & _ & Hopen0).
  destruct (Hopen0 ltac:(lia) ltac:(by left)) as ([t Hstart0] & _ & _).
  assert (Hget : array_get (stepTimings s) (currentStep s - 1) = Some r0)
    by (unfold array_get; by rewrite Hl0).
  assert (Hbase : timingBase s (currentStep s - 1)
                  = if (t =? 0)%Z then startTimeValue s else t)
    by (unfold timingBase; rewrite Hget; cbn; by rewrite Hstart0).
  rewrite Hget, Hbase.
  split_and!.
  - by rewrite length_insert.
  - intros i Hi. destruct (decide (i = currentStep s - 1)) as [->|Hne].
    + rewrite list_lookup_insert_eq by lia. eexists. split; [done|]. cbn.
      split_and!; [done | done | | done].
      exists t, now. cbn. by rewrite Hstart0.
    + rewrite list_lookup_insert_ne by done.
      destruct (Hrec i Hi) as (r & Hl & Hix & _ & Hexp & Hclosed & _).
      exists r. split_and!; [done | done | done | | lia].
      apply Hclosed. left. lia.
  - intros i r r' Hr Hr'.
    destruct (decide (i = currentStep s - 1)) as [->|Hne].
    + apply lookup_lt_Some in Hr'. rewrite length_insert in Hr'. lia.
    + rewrite list_lookup_insert_ne in Hr by done.
      destruct (decide (S i = currentStep s - 1)) as [Heq|Hne'].
      * rewrite Heq, list_lookup_insert_eq in Hr' by lia.
        injection Hr' as <-. cbn. rewrite Hstart0.
        rewrite <- Hstart0. apply (Hadj i r r0); [done|]. by rewrite Heq.
      * rewrite list_lookup_insert_ne in Hr' by done. by apply (Hadj i).
Qed.

Lemma nextStep_wellTimed now s : wellTimed s → wellTimed (nextStep now s).2.
Proof.
  intros Hw. unfold nextStep.
  destruct (decide (status s ≠ in_progress)) as [|Hst]; [done|].
  assert (Hst' : status s = in_progress) by (by apply dec_stable).
  destruct (close_last_record now s Hw Hst') as (Hlen1 & Hrec1 & Hadj1).
  set (s1 := if decide (0 < currentStep s) then _ else s).
  assert (Hs1 : stepTimings s1
    = (if decide (0 < currentStep s) then
         array_set (stepTimings s) (currentStep s - 1)
           (closeTiming (array_get (stepTimings s) (currentStep s - 1)) now
              (now - timingBase s (currentStep s - 1)))
       else stepTimings s)
    ∧ currentStep s1 = currentStep s ∧ recipe s1 = recipe s
    ∧ status s1 = status s ∧ startTime s1 = startTime s)
    by (subst s1; by destruct (decide (0 < currentStep s))).
  destruct Hs1 as (Hl1 & Hc1 & Hr1 & Hst1 & Hstart1).
  cbn zeta in Hlen1, Hrec1, Hadj1. rewrite <- Hl1 in Hlen1, Hrec1, Hadj1.
  unfold startTimeValue in Hrec1.
  rewrite <- Hc1 in Hlen1.
  rewrite <- Hc1, <- Hr1, <- Hstart1 in Hrec1.
  rewrite <- Hst1 in Hst'.
  clear Hl1 Hc1 Hr1 Hst1 Hstart1 Hw Hst. clearbody s1. clear s.
  destruct (decide (length (instructions (recipe s1)) ≤ currentStep s1))
    as [Hdone|Hmore]; cbn.
  - (* the session completes *)
    unfold wellTimed. cbn.
    split_and!; [done | done | | done].
    intros i Hi. destruct (Hrec1 i Hi) as (r & Hl & Hix & Hexp & Hcl & _).
    exists r. split_and!; [done | done | | done | done | by intros _ [|]].
    destruct Hcl as (t & e & -> & _). by eexists.
  - (* the next step begins *)
    assert (Happ : ∀ v, array_set (stepTimings s1) (currentStep s1) v
                        = stepTimings s1 ++ [Some v])
      by (intros v; rewrite <- Hlen1; apply array_set_end).
    unfold wellTimed. cbn. rewrite Happ.
    split_and!.
    + rewrite length_app. cbn. lia.
    + by rewrite Hst'.
    + intros i Hi. destruct (decide (i = currentStep s1)) as [->|Hne].
      * rewrite lookup_app_r, Hlen1, Nat.sub_diag by lia.
        eexists. split; [done|]. cbn.
        split_and!; [done | by eexists | done | | ].
        -- rewrite Hst'. intros [?|?]; [lia | done].
        -- intros _ _. split_and!; [by eexists | done | done].
      * rewrite lookup_app_l by lia.
        destruct (Hrec1 i ltac:(lia)) as (r & Hl & Hix & Hexp & Hcl & _).
        exists r. split_and!; [done | done | | done | done | lia].
        destruct Hcl as (t & e & -> & _). by eexists.
    + intros i r r' Hr Hr'.
      destruct (decide (S i < currentStep s1)) as [Hin|Hout].
      * rewrite lookup_app_l in Hr, Hr' by lia. by apply (Hadj1 i).
      * assert (HSi : S i = currentStep s1).
        { apply lookup_lt_Some in Hr'. rewrite length_app in Hr'.
          cbn in Hr'. lia. }
        rewrite lookup_app_l in Hr by lia.
        rewrite HSi in Hr'.
        rewrite lookup_app_r, Hlen1, Nat.sub_diag in Hr' by lia.
        injection Hr' as <-. cbn.
        destruct (Hrec1 i ltac:(lia)) as (r1 & Hl & _ & _ & _ & Hend).
        rewrite Hl in Hr. injection Hr as <-. by apply Hend.
Qed.

Lemma exec_wellTimed c s : wellTimed s → wellTimed (exec c s).
Proof.
  intros Hw. destruct c; cbn.
  - unfold start. case_decide as Hs; [done|].
    destruct Hw as (Hlen & Hzero & _ & Hadj).
    unfold wellTimed. cbn. rewrite (Hzero Hs).
    split_and!; [by rewrite Hlen, Hzero | done | intros i Hi; lia | done].
  - unfold pause. case_decide as Hs; [done|].
    apply (wellTimed_frame s); cbn; try done; auto.
  - unfold resume. case_decide as Hs; [done|].
    apply (wellTimed_frame s); cbn; try done; auto.
  - by apply nextStep_wellTimed.
  - apply (wellTimed_frame s); cbn; try done; auto.
    intros [|]; done.
  - apply (wellTimed_frame s); cbn; try done; auto.
    intros [|]; auto.
  - apply (wellTimed_frame s); cbn; try done; auto.
    intros [|]; auto.
Qed.

Lemma run_wellTimed cs : ∀ s, wellTimed s → wellTimed (run cs s).
Proof.
  induction cs as [|c cs IH]; intros s Hw; [done|].
  apply IH. by apply exec_wellTimed.
Qed.

Lemma run_recipe cs : ∀ s, recipe (run cs s) = recipe s.
Proof.
  induction cs as [|c cs IH]; intros s; [done|].
  cbn. fold (run cs (exec c s)). by rewrite IH, exec_recipe.
Qed.

Lemma run_snoc cs c s : run (cs ++ [c]) s = exec c (run cs s).
Proof. unfold run. by rewrite foldl_app. Qed.

(** X3: in every session reached from the constructor there is one timing
    record per step begun, none missing; the record in slot [i] carries
    step index [i] and, as expected duration, the minutes of instruction
    [i] in milliseconds, or null when they are missing or 0. *)
Theorem timing_record_per_step data t0 cs :
  length (stepTimings (run cs (new data t0)))
  = currentStep (run cs (new data t0))
  ∧ ∀ i,
      i < currentStep (run cs (new data t0)) →
      ∃ r,
        stepTimings (run cs (new data t0)) !! i = Some (Some r)
        ∧ stepIndex r = Some i
        ∧ is_Some (stepStartTime r)
        ∧ expectedDuration r
          = match instructions (dataRecipe data) !! i ≫= timing with
            | Some t => if (t * 60000 =? 0)%Z then None
                        else Some (t * 60000)%Z
            | None => None
            end.
Proof.
  destruct (run_wellTimed cs _ (wellTimed_new data t0))
    as (Hlen & _ & Hrec & _).
  split; [done|]. intros i Hi.
  destruct (Hrec i Hi) as (r & Hl & Hix & Hs & Hexp & _).
  exists r. rewrite run_recipe in Hexp. by split_and!.
Qed.

Lemma timing_record_per_step_witness :
  length (stepTimings
            (run [CallStart 1; CallNextStep 2; CallNextStep 3]
               (new oneStepData 0)))
  = currentStep (run [CallStart 1; CallNextStep 2; CallNextStep 3]
                   (new oneStepData 0)).
Proof.
  exact (proj1 (timing_record_per_step oneStepData 0
                  [CallStart 1; CallNextStep 2; CallNextStep 3])).
Defined.

(** X4: in every session reached from the constructor the timing records
    tile the cooking time: each record ends at the time the next one
    starts; every record before the last is closed, and so is the last
    once the session is completed, with as duration its end minus its
    start (minus the start of the session when its own start reads 0);
    while the session is in progress or paused the last record is open. *)
Theorem timing_records_closed_in_order data t0 cs :
  (∀ i r r',
     stepTimings (run cs (new data t0)) !! i = Some (Some r) →
     stepTimings (run cs (new data t0)) !! S i = Some (Some r') →
     stepEndTime r = stepStartTime r')
  ∧ (∀ i r,
       stepTimings (run cs (new data t0)) !! i = Some (Some r) →
       (S i < currentStep (run cs (new data t0))
        ∨ status (run cs (new data t0)) = completed →
        closedAt (startTimeValue (run cs (new data t0))) r)
       ∧ (S i = currentStep (run cs (new data t0)) →
          status (run cs (new data t0)) = in_progress
          ∨ status (run cs (new data t0)) = paused →
          openRecord r)).
Proof.
  destruct (run_wellTimed cs _ (wellTimed_new data t0))
    as (Hlen & _ & Hrec & Hadj).
  split; [done|]. intros i r Hr.
  assert (Hi : i < currentStep (run cs (new data t0)))
    by (apply lookup_lt_Some in Hr; lia).
  destruct (Hrec i Hi) as (r1 & Hl & _ & _ & _ & Hcl & Hop).
  rewrite Hl in Hr. by injection Hr as <-.
Qed.

Lemma timing_records_closed_in_order_witness :
  ∃ r,
    stepTimings (run [CallStart 1; CallNextStep 2; CallNextStep 3]
                   (new oneStepData 0)) !! 0 = Some (Some r)
    ∧ closedAt
        (startTimeValue (run [CallStart 1; CallNextStep 2; CallNextStep 3]
                           (new oneStepData 0))) r.
Proof.
  destruct (timing_records_closed_in_order oneStepData 0
              [CallStart 1; CallNextStep 2; CallNextStep 3]) as [_ Hrec].
  destruct (stepTimings (run [CallStart 1; CallNextStep 2; CallNextStep 3]
                           (new oneStepData 0)) !! 0)
    as [[r|]|] eqn:Hl; [|vm_compute in Hl; discriminate..].
  exists r. split; [reflexivity|].
  apply (Hrec 0 r Hl). right. vm_compute. reflexivity.
Defined.

(** ** Status and times *)

Lemma coherent_new data now : coherent (new data now).
Proof.
  split_and!; cbn; try done.
  intros [?|[?|?]]; done.
Qed.

Lemma exec_coherent c s : coherent s → coherent (exec c s).
Proof.
  intros (Hinit & Hrun & Hend).
  destruct c; cbn; by_guards; unfold coherent; cbn; try done.
  all: split_and!; try done; try (by intros _; eexists);
    try (intros [?|[?|?]]; try done; apply Hrun; auto);
    try (split; [done | intros [? ?]; done]);
    try (split; [by intros _; eexists | done]).
  all: match goal with
       | H : status _ = _ |- _ => rewrite H in Hend; exact Hend
       end.
Qed.

Lemma run_coherent cs : ∀ s, coherent s → coherent (run cs s).
Proof.
  induction cs as [|c cs IH]; intros s Hc; [done|].
  apply IH. by apply exec_coherent.
Qed.

(** X5: in every session reached from the constructor the status agrees
    with the times: an initialized session has no start time; a session
    in progress, paused or completed has one; and the end time is set
    exactly when the session is completed or aborted. *)
Theorem status_agrees_with_times data t0 cs :
  (status (run cs (new data t0)) = initialized →
   startTime (run cs (new data t0)) = None)
  ∧ (status (run cs (new data t0)) = in_progress
     ∨ status (run cs (new data t0)) = paused
     ∨ status (run cs (new data t0)) = completed →
     is_Some (startTime (run cs (new data t0))))
  ∧ (terminal (status (run cs (new data t0))) = true
     ↔ is_Some (endTime (run cs (new data t0)))).
Proof. apply (run_coherent cs _ (coherent_new data t0)). Qed.

Lemma status_agrees_with_times_witness :
  is_Some (endTime (run [CallAbort None 3] (new oneStepData 0))).
Proof.
  apply (proj2 (proj2 (status_agrees_with_times oneStepData 0
                         [CallAbort None 3]))).
  reflexivity.
Defined.

Lemma exec_started c s :
  status s ≠ initialized →
  startTime (exec c s) = startTime s ∧ status (exec c s) ≠ initialized.
Proof. intros Hs. destruct c; cbn; by_guards; done. Qed.

(** X6: the start time is set once.  From a session that is no longer
    initialized no sequence of calls changes the start time, and none
    brings the session back to initialized. *)
Theorem start_time_set_once cs : ∀ s,
  status s ≠ initialized →
  startTime (run cs s) = startTime s ∧ status (run cs s) ≠ initialized.
Proof.
  induction cs as [|c cs IH]; intros s Hs; [done|].
  destruct (exec_started c s Hs) as [Ht Hs'].
  destruct (IH (exec c s) Hs') as [Ht' Hs''].
  cbn. unfold run in *. split; [congruence | done].
Qed.

Lemma start_time_set_once_witness :
  startTime (run [CallStart 7; CallPause 8; CallAbort None 9]
               oneStepAdvanced)
  = startTime oneStepAdvanced.
Proof.
  apply (start_time_set_once [CallStart 7; CallPause 8; CallAbort None 9]
           oneStepAdvanced).
  vm_compute. discriminate.
Defined.

(** X7: [getCurrentStepInfo] never answers "All steps completed!" on a
    session reached from the constructor, the step index never passing the
    number of instructions; it answers the initial message exactly at step
    index 0, and step info otherwise. *)
Theorem all_steps_message_unreachable data t0 cs :
  getCurrentStepInfo (run cs (new data t0))
  ≠ Message "All steps completed!" "complete"
  ∧ (currentStep (run cs (new data t0)) = 0 ↔
     getCurrentStepInfo (run cs (new data t0))
     = Message "Session initialized. Ready to start cooking." "start")
  ∧ (currentStep (run cs (new data t0)) ≠ 0 →
     ∃ i, getCurrentStepInfo (run cs (new data t0)) = Info i
          ∧ infoCurrentStep i = currentStep (run cs (new data t0))
          ∧ totalSteps i = length (instructions (dataRecipe data))).
Proof.
  pose proof (run_bound cs (new data t0) ltac:(cbn; lia)) as Hb.
  pose proof (run_recipe cs (new data t0)) as Hr.
  unfold getCurrentStepInfo. rewrite Hr. cbn [recipe new] in *.
  destruct (decide (currentStep (run cs (new data t0)) = 0)) as [Hz|Hnz].
  - split_and!; [done | done | done].
  - destruct (decide (length (instructions (dataRecipe data))
                      < currentStep (run cs (new data t0)))); [lia|].
    split_and!; [done | | by eexists].
    split; [done | by intros [=]].
Qed.

Lemma all_steps_message_unreachable_witness :
  ∃ i,
    getCurrentStepInfo
      (run [CallStart 1; CallNextStep 2; CallNextStep 3] (new oneStepData 0))
    = Info i
    ∧ infoCurrentStep i
      = currentStep (run [CallStart 1; CallNextStep 2; CallNextStep 3]
                       (new oneStepData 0))
    ∧ totalSteps i = length (instructions (dataRecipe oneStepData)).
Proof.
  destruct (all_steps_message_unreachable oneStepData 0
              [CallStart 1; CallNextStep 2; CallNextStep 3])
    as (_ & _ & Hinfo).
  apply Hinfo. vm_compute. discriminate.
Defined.

(** ** The logs of a session *)

Lemma exec_errors c s : errors (exec c s) = errors s ++ abortEntries [c].
Proof. destruct c; cbn; by_guards; by rewrite ?app_nil_r. Qed.

Lemma exec_sensorData c s :
  sensorData (exec c s)
  = sensorData s
    ++ match c with
       | CallAddSensorData ty v t =>
           [ {| sensorType := ty; sensorValue := v; sensorTimestamp := t;
                sensorStepIndex := currentStep s |} ]
       | _ => []
       end.
Proof. destruct c; cbn; by_guards; by rewrite ?app_nil_r. Qed.

Lemma exec_step_monotone c s : currentStep s ≤ currentStep (exec c s).
Proof. destruct c; cbn; by_guards; lia. Qed.

(** X8: the error log and the sensor log only grow.  After any sequence
    of calls the errors are the earlier errors followed by one
    "session_aborted" entry per [abort] call, with its reason or "User
    cancelled"; the sensor data keep the earlier readings as a prefix and
    gain one reading per [addSensorData] call, in any state. *)
Theorem logs_append_only cs : ∀ s,
  errors (run cs s) = errors s ++ abortEntries cs
  ∧ sensorData s `prefix_of` sensorData (run cs s)
  ∧ length (sensorData (run cs s))
    = length (sensorData s) + length (filter (fun c => isSensor c = true) cs).
Proof.
  induction cs as [|c cs IH]; intros s.
  - cbn. rewrite app_nil_r. split_and!; [done | done | lia].
  - destruct (IH (exec c s)) as (He & Hp & Hl).
    change (run (c :: cs) s) with (run cs (exec c s)).
    rewrite He, Hl, exec_errors, exec_sensorData, filter_cons, length_app.
    rewrite exec_sensorData in Hp.
    split_and!.
    + rewrite <- app_assoc. f_equal.
      change (c :: cs) with ([c] ++ cs). unfold abortEntries.
      by rewrite omap_app.
    + etrans; [|exact Hp]. by apply prefix_app_r.
    + destruct c; cbn; case_decide; cbn; try done; lia.
Qed.

Lemma exec_taggedInOrder c s : taggedInOrder s → taggedInOrder (exec c s).
Proof.
  intros [Hsorted Hall]. unfold taggedInOrder.
  rewrite exec_sensorData. pose proof (exec_step_monotone c s) as Hmono.
  split.
  - apply StronglySorted_app_2; [|done|].
    + intros x1 x2 Hx1 Hx2. rewrite Forall_forall in Hall.
      destruct c; try by apply elem_of_nil in Hx2.
      apply list_elem_of_singleton in Hx2 as ->. cbn. by apply Hall.
    + destruct c; repeat constructor.
  - apply Forall_app. split.
    + eapply Forall_impl; [done|]. cbn. intros r Hr. lia.
    + destruct c; repeat constructor.
Qed.

(** X9: in every session reached from the constructor the sensor readings
    carry step indices in non-decreasing order, none above the current
    step index. *)
Theorem sensor_tags_in_order data t0 cs :
  StronglySorted (fun a b => sensorStepIndex a ≤ sensorStepIndex b)
    (sensorData (run cs (new data t0)))
  ∧ Forall (fun r => sensorStepIndex r
                     ≤ currentStep (run cs (new data t0)))
      (sensorData (run cs (new data t0))).
Proof.
  assert (H : ∀ cs s, taggedInOrder s → taggedInOrder (run cs s)).
  { clear. induction cs as [|c cs IH]; intros s Hs; [done|].
    apply IH. by apply exec_taggedInOrder. }
  apply (H cs (new data t0)). split; constructor.
Qed.

(** ** Step info *)

Lemma remaining_shift (l : list Instruction) : ∀ a : Z,
  foldl (fun acc ins => (acc + default 0 (timing ins))%Z) a l
  = (a + foldl (fun acc ins => (acc + default 0 (timing ins))%Z) 0 l)%Z.
Proof.
  induction l as [|x l IH]; intros a; cbn; [lia|].
  rewrite (IH (a + _)%Z), (IH (0 + _)%Z). lia.
Qed.

(** X10: a call to [nextStep] that begins instruction [ins] returns step
    info naming that instruction and the next one, with a progress above
    0 and at most 100 percent and, as time remaining, the time that
    remained before the call less the minutes of [ins]; for the last
    instruction the time remaining is 0. *)
Theorem step_info_counts_down now s ins :
  status s = in_progress →
  instructions (recipe s) !! currentStep s = Some ins →
  ∃ i s',
    nextStep now s = (Normal (Info i), s')
    ∧ infoCurrentStep i = S (currentStep s)
    ∧ totalSteps i = length (instructions (recipe s))
    ∧ currentInstruction i = Some ins
    ∧ nextInstruction i = instructions (recipe s) !! S (currentStep s)
    ∧ estimatedTimeRemaining i
      = (calculateRemainingTime s - default 0 (timing ins))%Z
    ∧ (S (currentStep s) = length (instructions (recipe s)) →
       estimatedTimeRemaining i = 0%Z)
    ∧ (0 < progress i ∧ progress i <= 100)%Q.
Proof.
  intros Hst Hins. pose proof (lookup_lt_Some _ _ _ Hins) as Hlt.
  unfold nextStep. case_decide; [done|].
  set (s1 := if decide (0 < currentStep s) then _ else s).
  assert (Hs1 : currentStep s1 = currentStep s ∧ recipe s1 = recipe s)
    by (subst s1; by case_decide).
  destruct Hs1 as [Hc1 Hr1]. clearbody s1.
  case_decide as Hdone; [rewrite Hc1, Hr1 in Hdone; lia|].
  unfold getCurrentStepInfo. cbn. rewrite Hc1, Hr1.
  case_decide; [lia|]. case_decide; [lia|].
  eexists _, _. split; [reflexivity|]. cbn.
  replace (currentStep s - 0) with (currentStep s) by lia.
  assert (Hrem : calculateRemainingTime s
    = (default 0 (timing ins)
       + foldl (fun acc ins => (acc + default 0 (timing ins))%Z) 0%Z
           (drop (S (currentStep s)) (instructions (recipe s))))%Z).
  { unfold calculateRemainingTime. rewrite (drop_S _ _ _ Hins). cbn.
    by rewrite remaining_shift. }
  split_and!; [done | done | done | done | rewrite Hrem; lia | | |].
  - intros Hlast. rewrite drop_ge by lia. done.
  - assert (Hk : (0 < inject_Z (Z.of_nat (length (instructions (recipe s)))))%Q).
    { change 0%Q with (inject_Z 0). rewrite <- Zlt_Qlt. lia. }
    apply Qmult_lt_0_compat; [|reflexivity].
    apply Qlt_shift_div_l; [done|]. rewrite Qmult_0_l.
    change 0%Q with (inject_Z 0). rewrite <- Zlt_Qlt. lia.
  - assert (Hk : (0 < inject_Z (Z.of_nat (length (instructions (recipe s)))))%Q).
    { change 0%Q with (inject_Z 0). rewrite <- Zlt_Qlt. lia. }
    assert (Hle : (inject_Z (Z.of_nat (S (currentStep s)))
                   <= inject_Z (Z.of_nat (length (instructions (recipe s)))))%Q).
    { rewrite <- Zle_Qle. lia. }
    apply (Qle_trans _ (1 * 100)); [|discriminate].
    apply Qmult_le_compat_r; [|discriminate].
    apply Qle_shift_div_r; [done|]. by rewrite Qmult_1_l.
Qed.

Lemma step_info_counts_down_witness :
  ∃ i s',
    nextStep 2 (start 1 (new oneStepData 0)).2 = (Normal (Info i), s')
    ∧ estimatedTimeRemaining i = 0%Z.
Proof.
  destruct (step_info_counts_down 2 (start 1 (new oneStepData 0)).2
              (mkInstruction "a" (Some 5%Z)))
    as (i & s' & Hcall & _ & _ & _ & _ & _ & Hzero & _);
    [reflexivity | reflexivity |].
  exists i, s'. split; [exact Hcall | apply Hzero; reflexivity].
Defined.

(** ** Quality metrics *)

Lemma exec_qualityMetrics c s :
  qualityMetrics (exec c s)
  = match c with
    | CallUpdateQualityMetric m v now =>
        <[ m := {| metricValue := v; metricTimestamp := now;
                   metricStepIndex := currentStep s |} ]> (qualityMetrics s)
    | _ => qualityMetrics s
    end.
Proof. destruct c; cbn; by_guards; done. Qed.

(** X11: a quality metric holds what was written last.  After any sequence
    of calls the value stored under a name is the value of the last
    [updateQualityMetric] call for that name; without such a call the
    entry is as it was. *)
Theorem quality_metric_last_write_wins metric cs : ∀ s,
  match lastMetric metric cs with
  | Some v =>
      metricValue <$> (qualityMetrics (run cs s) !! metric) = Some v
  | None => qualityMetrics (run cs s) !! metric = qualityMetrics s !! metric
  end.
Proof.
  induction cs as [|c cs IH] using rev_ind; intros s; [done|].
  rewrite run_snoc, exec_qualityMetrics. unfold lastMetric.
  rewrite omap_app. specialize (IH s). unfold lastMetric in IH.
  destruct c; cbn; rewrite ?app_nil_r; try exact IH.
  case_decide as Hm.
  - subst. rewrite last_snoc, lookup_insert_eq. done.
  - rewrite app_nil_r, lookup_insert_ne by done. exact IH.
Qed.

End CookingMoreSpec.

(** * More properties of the consumption profile *)
Module ConsumptionMoreSpec.
Import JSNumber Consumption ConsumptionMore NumberFacts ConsumptionSpec.

(** ** What recording leaves alone *)

Lemma recordConsumption_settings i served consumed ts now p :
  adjustmentSettings (recordConsumption i served consumed ts now p).2
  = adjustmentSettings p.
Proof.
  unfold recordConsumption. cbn.
  match goal with
  | |- context [checkForPortionAdjustment ?j ?n ?q] =>
      destruct (checkForPortionAdjustment_keeps j n q)
        as (_ & _ & _ & _ & Hset)
  end.
  by rewrite Hset.
Qed.

Lemma consume_history c p :
  portionHistory (consume c p) = portionHistory p ++ [recordOf c].
Proof. unfold consume. by rewrite recordConsumption_history. Qed.

Lemma run_consume_last cs c p : run (cs ++ [c]) p = consume c (run cs p).
Proof. unfold run. by rewrite foldl_app. Qed.

(** X12: the portion history is append-only.  After any sequence of
    [recordConsumption] calls it is the earlier history followed by one
    record per call, in order, each holding the arguments of its call;
    the calls change neither the current portions nor the settings, and
    the last update is the timestamp of the last call. *)
Theorem history_grows_by_records cs : ∀ p,
  portionHistory (run cs p) = portionHistory p ++ (recordOf <$> cs)
  ∧ currentPortions (run cs p) = currentPortions p
  ∧ adjustmentSettings (run cs p) = adjustmentSettings p
  ∧ lastConsumptionUpdate (run cs p)
    = match last cs with
      | Some c => Some (cTimestamp c)
      | None => lastConsumptionUpdate p
      end.
Proof.
  induction cs as [|c cs IH] using rev_ind; intros p.
  - cbn. by rewrite app_nil_r.
  - destruct (IH p) as (Hh & Hp & Hs & _).
    rewrite run_consume_last, consume_history, Hh, fmap_app, last_snoc,
      <- app_assoc.
    split_and!; [done | | | done].
    + unfold consume. by rewrite recordConsumption_portions.
    + unfold consume. by rewrite recordConsumption_settings.
Qed.

(** ** When a suggestion is logged *)

Lemma suggest_same_inputs i a now p q :
  currentPortions q = currentPortions p →
  adjustmentSettings q = adjustmentSettings p →
  (suggestPortionAdjustment i a now q).1
  = (suggestPortionAdjustment i a now p).1.
Proof. intros Hc Hs. unfold suggestPortionAdjustment. cbn. by rewrite Hc, Hs. Qed.



(** ** The suggested portion under the default rates *)

Lemma Qeq_bool_false (q : Q) : ¬ (q == 0)%Q → Qeq_bool q 0 = false.
Proof.
  intros Hq. destruct (Qeq_bool q 0) eqn:Hb; [|done].
  by apply Qeq_bool_iff in Hb.
Qed.

Lemma gt_Fin_true (x y : Q) : (y < x)%Q → gt (Fin x) (Fin y) = true.
Proof. intros H. cbn. apply Qgt_alt in H. by rewrite H. Qed.

Lemma gt_Fin_false (x y : Q) : (x <= y)%Q → gt (Fin x) (Fin y) = false.
Proof.
  intros H. cbn. destruct (Qcompare_spec x y) as [?|?|Hgt]; try done.
  exfalso. apply (Qlt_not_le _ _ Hgt H).
Qed.

Lemma min_Fin_right (x y : Q) :
  (y <= x)%Q → ∃ f, min (Fin x) (Fin y) = Fin f ∧ (f == y)%Q.
Proof.
  intros Hxy. unfold min, gt.
  destruct (Qcompare_spec x y) as [Heq|Hlt|Hgt].
  - by exists x.
  - exfalso. apply (Qlt_not_le _ _ Hlt Hxy).
  - by exists y.
Qed.

Lemma max_Fin_left (x y : Q) : (y < x)%Q → max (Fin x) (Fin y) = Fin x.
Proof. intros H. unfold max. by rewrite gt_Fin_false by lra. Qed.

Lemma div_Fin (x y : Q) :
  ¬ (y == 0)%Q → (Fin x / Fin y)%num = Fin (x / y).
Proof. intros Hy. cbn. by rewrite Qeq_bool_false. Qed.

(** With a learning rate of 0.1 and a maximum adjustment of 0.2, a
    positive current portion [c] and an average waste of at most 200
    percent, the suggestion is 0.8 [c]: a reduction of 20 percent. *)
Lemma suggest_default_cut i (w c : Q) now p :
  learningRate (adjustmentSettings p) = Fin (1 # 10) →
  maxAdjustmentPerCycle (adjustmentSettings p) = Fin (20 # 100) →
  or_default (currentPortions p !! i) (Fin 100) = Fin c →
  (0 < c)%Q → (w <= 200)%Q →
  currentPortion (suggestPortionAdjustment i (Fin w) now p).1 = Fin c
  ∧ isQ (c * (8 # 10))
      (suggestedPortion (suggestPortionAdjustment i (Fin w) now p).1)
  ∧ isQ 20
      (reductionPercentage (suggestPortionAdjustment i (Fin w) now p).1).
Proof.
  intros Hlr Hmax Hcur Hc Hw. unfold suggestPortionAdjustment.
  cbn [fst currentPortion suggestedPortion reductionPercentage].
  rewrite Hlr, Hmax, Hcur.
  rewrite (div_Fin w 100) by discriminate.
  change (Fin (w / 100) * Fin (1 # 10))%num
    with (Fin (w / 100 * (1 # 10))).
  change (Fin 1 - Fin (w / 100 * (1 # 10)))%num
    with (Fin (1 - w / 100 * (1 # 10))).
  change (Fin 1 - Fin (20 # 100))%num with (Fin (1 - (20 # 100))).
  destruct (min_Fin_right (1 - w / 100 * (1 # 10)) (1 - (20 # 100)))
    as (f & -> & Hf).
  { unfold Qdiv. assert (H100 : (/ 100 == 1 # 100)%Q) by reflexivity.
    rewrite H100. lra. }
  change (Fin c * Fin f)%num with (Fin (c * f)).
  change (Fin c * Fin (1 # 2))%num with (Fin (c * (1 # 2))).
  rewrite max_Fin_left by (rewrite Hf; nra).
  change (Fin c - Fin (c * f))%num with (Fin (c - c * f)).
  rewrite (div_Fin _ c) by lra.
  change (Fin ((c - c * f) / c) * Fin 100)%num
    with (Fin ((c - c * f) / c * 100)).
  split_and!; [done | | ].
  - eexists. split; [done|]. rewrite Hf. lra.
  - eexists. split; [done|]. rewrite Hf. field. lra.
Qed.



(** ** The optimal portion *)

(** X15: an approved adjustment to a portion that is neither 0 nor NaN is
    what [getOptimalPortion] returns from then on and what the next
    suggestion starts from; an adjustment to 0 is stored but read as
    unset: the next suggestion starts from 100 again and, without history
    in the last 14 days, the optimal portion is the default one. *)
Theorem adjusted_portion_is_read_back i v approved now now' a p :
  consultationRequired (adjustmentSettings p) = false ∨ approved = true →
  (truthy v = true →
   getOptimalPortion i now' (applyPortionAdjustment i v approved now p).2 = v
   ∧ currentPortion
       (suggestPortionAdjustment i a now'
          (applyPortionAdjustment i v approved now p).2).1 = v)
  ∧ (truthy v = false →
     currentPortion
       (suggestPortionAdjustment i a now'
          (applyPortionAdjustment i v approved now p).2).1 = Fin 100
     ∧ (getHistoricalConsumption i 14 now' p = [] →
        getOptimalPortion i now' (applyPortionAdjustment i v approved now p).2
        = getDefaultPortion i)).
Proof.
  intros Hok.
  assert (Hgo : consultationRequired (adjustmentSettings p)
                && negb approved = false)
    by (destruct Hok as [-> | ->]; [done | apply andb_false_r]).
  unfold applyPortionAdjustment. rewrite Hgo. cbn.
  unfold getOptimalPortion, getRecentAverageConsumption,
    getHistoricalConsumption. cbn.
  rewrite lookup_insert_eq. cbn.
  split.
  - intros ->. done.
  - intros ->. split; [done|].
    unfold getHistoricalConsumption. intros ->. done.
Qed.

Lemma adjusted_portion_is_read_back_witness :
  getOptimalPortion "lettuce" (sampleDate 2)
    (applyPortionAdjustment "lettuce" (Fin 60) true (sampleDate 1) fresh).2
  = Fin 60.
Proof.
  apply (adjusted_portion_is_read_back "lettuce" (Fin 60) true
           (sampleDate 1) (sampleDate 2) (Fin 30) fresh);
    [right; reflexivity | reflexivity].
Defined.

(** ** The trend *)

(** X16: the trend compares the recent average with the records of the
    last 90 days less the newest 30 of them, records and not days: with
    30 records of the ingredient or fewer in the last 90 days nothing is
    left to compare with and the trend multiplier is 1. *)
Theorem trend_needs_more_than_thirty_records i now p :
  length (getHistoricalConsumption i 90 now p) ≤ 30 →
  getTrendMultiplier i now p = Fin 1.
Proof.
  intros Hfew. unfold getTrendMultiplier.
  replace (length (getHistoricalConsumption i 90 now p) - 30) with 0 by lia.
  done.
Qed.

Lemma trend_needs_more_than_thirty_records_witness :
  getTrendMultiplier "lettuce" (sampleDate 9)
    (run (replicate 30 (lettuce 100 70 1)) fresh) = Fin 1.
Proof.
  apply trend_needs_more_than_thirty_records. vm_compute. lia.
Defined.

(** ** The confidence of a prediction *)

Lemma clamp_confidence x :
  max (Fin (1 # 10)) (min (Fin (95 # 100)) x) = NaN
  ∨ within (1 # 10) (95 # 100) (max (Fin (1 # 10)) (min (Fin (95 # 100)) x)).
Proof.
  destruct x as [q| | |]; [| right | right | by left].
  - right. unfold min, max, gt.
    destruct (Qcompare_spec (95 # 100) q) as [Heq|Hlt|Hgt].
    + by eexists.
    + by eexists.
    + destruct (Qcompare_spec q (1 # 10)) as [?|?|?];
        eexists; (split; [done|]); lra.
  - by eexists.
  - by eexists.
Qed.

(** X17: whatever the history and whatever [Math.sqrt] returns, the
    confidence of a prediction is a number from 0.1 to 0.95, or NaN. *)
Theorem confidence_clamped_or_nan sqrt i dataPoints now p :
  calculatePredictionConfidence sqrt i dataPoints now p = NaN
  ∨ within (1 # 10) (95 # 100)
      (calculatePredictionConfidence sqrt i dataPoints now p).
Proof. unfold calculatePredictionConfidence. apply clamp_confidence. Qed.

Lemma isQ0_add a b : isQ 0 a → isQ 0 b → isQ 0 (a + b)%num.
Proof.
  intros (x & -> & Hx) (y & -> & Hy). eexists. split; [done|].
  rewrite Hx, Hy. reflexivity.
Qed.

Lemma foldl_isQ0 {A} (f : A → number) (l : list A) : ∀ a,
  Forall (fun x => isQ 0 (f x)) l → isQ 0 a →
  isQ 0 (foldl (fun acc x => (acc + f x)%num) a l).
Proof.
  induction l as [|x l IH]; intros a Hl Ha; [done|].
  apply Forall_cons in Hl as [Hx Hl]. cbn. apply IH; [done|].
  by apply isQ0_add.
Qed.

Lemma isQ0_div_count a n : 0 < n → isQ 0 a → isQ 0 (a / of_nat n)%num.
Proof.
  intros Hn (x & -> & Hx). unfold of_nat. rewrite div_Fin.
  - eexists. split; [done|]. rewrite Hx. unfold Qdiv. apply Qmult_0_l.
  - intros H0. pose proof (of_nat_positive n Hn) as Hpos.
    apply Qeq_alt in H0. congruence.
Qed.

(** X18: when the last 14 days hold two records of the ingredient or more
    and nothing of it was consumed in any of them, the coefficient of
    variation is 0 / 0 and the confidence of the prediction is NaN, not a
    number from 0.1 to 0.95; [Math.sqrt] is only asked to map 0 to 0. *)
Theorem confidence_nan_without_consumption sqrt i dataPoints now p :
  (∀ q, (q == 0)%Q → isQ 0 (sqrt (Fin q))) →
  1 < length (getHistoricalConsumption i 14 now p) →
  Forall (fun r => isQ 0 (portionConsumed r))
    (getHistoricalConsumption i 14 now p) →
  calculatePredictionConfidence sqrt i dataPoints now p = NaN.
Proof.
  intros Hsqrt Hlen Hzero. unfold calculatePredictionConfidence.
  case_decide; [|lia].
  set (recent := getHistoricalConsumption i 14 now p) in *.
  assert (Hpos : 0 < length recent) by lia.
  assert (Hmean : isQ 0 (sumConsumed recent / of_nat (length recent))%num).
  { apply isQ0_div_count; [done|]. apply foldl_isQ0; [done|].
    by exists 0%Q. }
  assert (Hvar : isQ 0 (calculateVariance (portionConsumed <$> recent))).
  { unfold calculateVariance. rewrite length_fmap.
    assert (Hm : isQ 0 (sum (portionConsumed <$> recent)
                        / of_nat (length recent))%num).
    { apply isQ0_div_count; [done|]. unfold sum.
      apply (foldl_isQ0 (fun x => x)); [|by exists 0%Q].
      by apply Forall_fmap. }
    destruct Hm as (m & -> & Hm).
    apply isQ0_div_count; [done|].
    apply (foldl_isQ0 (fun val => ((val - Fin m) * (val - Fin m))%num));
      [|by exists 0%Q].
    apply Forall_fmap. eapply Forall_impl; [exact Hzero|]. cbn.
    intros r (q & -> & Hq). eexists. split; [done|].
    rewrite Hq, Hm. reflexivity. }
  destruct Hvar as (v & -> & Hv). destruct (Hsqrt v Hv) as (z & -> & Hz).
  destruct Hmean as (m & -> & Hm).
  assert (Hcv : (Fin z / Fin m)%num = NaN).
  { cbn. apply Qeq_bool_iff in Hm as ->. apply Qeq_alt in Hz. by rewrite Hz. }
  rewrite Hcv. change (max (Fin (3 # 10)) (Fin 1 - NaN)%num) with NaN.
  by destruct (min (of_nat dataPoints / Fin 30)%num (Fin 1)).
Qed.

Lemma confidence_nan_without_consumption_witness :
  calculatePredictionConfidence (fun x => x) "lettuce" 2 (sampleDate 9)
    (run (replicate 2 (lettuce 100 0 1)) fresh) = NaN.
Proof.
  apply confidence_nan_without_consumption.
  - intros q Hq. by exists q.
  - vm_compute. lia.
  - vm_compute. repeat constructor; by exists 0%Q.
Defined.

(** ** The variance *)

Lemma sum_Fin (qs : list Q) : ∀ a,
  ∃ s, foldl add (Fin a) (Fin <$> qs) = Fin s.
Proof.
  induction qs as [|q qs IH]; intros a; [by eexists|]. cbn. apply IH.
Qed.

Lemma squares_Fin (m : Q) (qs : list Q) : ∀ a,
  ∃ s,
    foldl (fun acc val => (acc + (val - Fin m) * (val - Fin m))%num)
      (Fin a) (Fin <$> qs) = Fin s
    ∧ (a <= s)%Q.
Proof.
  induction qs as [|q qs IH]; intros a.
  - exists a. split; [done | lra].
  - cbn. destruct (IH (a + (q + - m) * (q + - m))%Q) as (s & -> & Hs).
    exists s. split; [done|].
    assert (Hsq : (0 <= (q + - m) * (q + - m))%Q).
    { destruct (Qlt_le_dec (q + - m) 0) as [Hneg|Hpos]; nra. }
    lra.
Qed.



(** ** The overall waste rate of sane records *)

Lemma cnt_add n m : (cnt (n + m) == cnt n + cnt m)%Q.
Proof. unfold cnt. by rewrite Nat2Z.inj_add, inject_Z_plus. Qed.

Lemma cnt_0 : cnt 0 = 0%Q.
Proof. reflexivity. Qed.

Lemma cnt_1 : cnt 1 = 1%Q.
Proof. reflexivity. Qed.

Lemma cnt_positive n : 0 < n → (0 < cnt n)%Q.
Proof. intros Hn. apply Qgt_alt. by apply of_nat_positive. Qed.

Lemma percentage_sane c : sane c → within 0 100 (percentage c).
Proof.
  intros (s & q & Hs & Hq & Hpos & Hq0 & Hqs). unfold percentage.
  rewrite Hs, Hq. change (Fin s - Fin q)%num with (Fin (s - q)).
  rewrite div_Fin by lra. eexists. split; [done|].
  assert (H0 : (0 <= (s - q) / s)%Q).
  { apply Qle_shift_div_l; [done|]. lra. }
  assert (H1 : ((s - q) / s <= 1)%Q).
  { apply Qle_shift_div_r; [done|]. lra. }
  lra.
Qed.

Lemma pushWindow_Forall (P : number → Prop) l w :
  Forall P l → P w → Forall P (pushWindow l w).
Proof.
  intros Hl Hw. unfold pushWindow.
  assert (Forall P (l ++ [w])) by (apply Forall_app; split; by repeat constructor).
  case_decide; [by apply Forall_drop | done].
Qed.

Lemma consume_percentagesInRange c p :
  sane c → percentagesInRange p → percentagesInRange (consume c p).
Proof.
  intros Hc Hp. unfold percentagesInRange, consume.
  rewrite recordConsumption_window.
  apply map_Forall_insert_2; [|done].
  apply pushWindow_Forall; [|by apply percentage_sane].
  destruct (wasteTracking p !! cIngredient c) as [l|] eqn:Hl; cbn; [|done].
  by apply (Hp _ _ Hl).
Qed.

Lemma sum_bounds (lo hi : Q) l : ∀ a,
  Forall (within lo hi) l →
  ∃ q, foldl add (Fin a) l = Fin q
       ∧ (a + lo * cnt (length l) <= q)%Q
       ∧ (q <= a + hi * cnt (length l))%Q.
Proof.
  induction l as [|x l IH]; intros a Hl.
  - exists a. cbn [foldl length]. rewrite cnt_0. split; [done|]. lra.
  - apply Forall_cons in Hl as [(v & -> & Hlo & Hhi) Hl].
    cbn [foldl]. change (Fin a + Fin v)%num with (Fin (a + v)).
    destruct (IH (a + v)%Q Hl) as (q & -> & Hq1 & Hq2).
    exists q. split; [done|].
    change (length (Fin v :: l)) with (1 + length l).
    rewrite cnt_add, cnt_1. lra.
Qed.

Lemma totals_bounds (lo hi : Q) (kvs : list (string * list number)) :
  ∀ a n,
    Forall (fun kv => Forall (within lo hi) kv.2) kvs →
    (lo * cnt n <= a)%Q → (a <= hi * cnt n)%Q →
    ∃ q m,
      foldl (fun acc kv => ((acc.1 + sum kv.2)%num, acc.2 + length kv.2))
        (Fin a, n) kvs = (Fin q, m)
      ∧ (lo * cnt m <= q)%Q ∧ (q <= hi * cnt m)%Q.
Proof.
  induction kvs as [|[k l] kvs IH]; intros a n Hall Hlo Hhi.
  - by exists a, n.
  - apply Forall_cons in Hall as [Hl Hall]. cbn in Hl. cbn [foldl fst snd].
    destruct (sum_bounds lo hi l 0 Hl) as (s & Hs & Hs1 & Hs2).
    unfold sum. rewrite Hs. change (Fin a + Fin s)%num with (Fin (a + s)).
    apply IH; [done | |]; rewrite cnt_add; lra.
Qed.

Lemma overallRate_in_range (m : gmap string (list number)) :
  map_Forall (fun _ l => Forall (within 0 100) l) m →
  within 0 100 (overallRate m).
Proof.
  intros Hm. unfold overallRate, wasteTotals.
  destruct (totals_bounds 0 100 (map_to_list m) 0 0) as (q & n & -> & Hq1 & Hq2).
  - apply Forall_forall. intros [k l] Hin. cbn.
    apply elem_of_map_to_list in Hin. by apply (Hm k l).
  - rewrite cnt_0. lra.
  - rewrite cnt_0. lra.
  - case_decide as Hn; [|by exists 0%Q].
    pose proof (cnt_positive n Hn) as Hpos.
    change (of_nat n) with (Fin (cnt n)). rewrite div_Fin by lra.
    eexists. split; [done|]. split.
    + apply Qle_shift_div_l; [done|]. lra.
    + apply Qle_shift_div_r; [done|]. lra.
Qed.

(** X20: when every recorded serving is positive and its consumption lies
    between nothing and the whole serving, the overall waste rate of a
    profile built without inherited windows is, after any sequence of
    records, a finite percentage from 0 to 100. *)
Theorem overall_rate_is_percentage data now cs :
  dataWasteTracking data = None →
  dataOverallWasteRate data = None →
  Forall sane cs →
  within 0 100 (overallWasteRate (run cs (new data now))).
Proof.
  intros Hw Hr Hcs.
  assert (Hinv : ∀ cs p, Forall sane cs → percentagesInRange p →
                         percentagesInRange (run cs p)).
  { clear. induction cs as [|c cs IH]; intros p Hcs Hp; [done|].
    apply Forall_cons in Hcs as [Hc Hcs].
    apply (IH _ Hcs). by apply consume_percentagesInRange. }
  assert (Hnew : percentagesInRange (new data now)).
  { unfold percentagesInRange. cbn. rewrite Hw. apply map_Forall_empty. }
  destruct cs as [|c cs] using rev_ind.
  - cbn. rewrite Hr. by exists 0%Q.
  - rewrite run_consume_last. unfold consume.
    rewrite recordConsumption_rate. apply overallRate_in_range.
    pose proof (Hinv (cs ++ [c]) _ Hcs Hnew) as Hall.
    rewrite run_consume_last in Hall. exact Hall.
Qed.

Lemma overall_rate_is_percentage_witness :
  within 0 100
    (overallWasteRate (run [lettuce 100 70 1; lettuce 80 80 2]
                         (new freshData (sampleDate 0)))).
Proof.
  apply overall_rate_is_percentage; [reflexivity | reflexivity |].
  repeat constructor.
  - exists 100%Q, 70%Q. by compute.
  - exists 80%Q, 80%Q. by compute.
Defined.

End ConsumptionMoreSpec.

(** * Properties of the distribution service *)
Module DistributionSpec.
Import JSNumber Consumption ConsumptionMore Distribution.
Import NumberFacts ConsumptionSpec ConsumptionMoreSpec.

Lemma apply_approved i v now p :
  ∃ a p',
    applyPortionAdjustment i v true now p = (Normal a, p')
    ∧ currentPortions p' = <[ i := v ]> (currentPortions p).
Proof.
  unfold applyPortionAdjustment. rewrite andb_false_r. by eexists _, _.
Qed.





Lemma div_Fin_zero (a b : Q) :
  (a == 0)%Q → (b == 0)%Q → (Fin a / Fin b)%num = NaN.
Proof.
  intros Ha Hb. unfold div.
  apply Qeq_bool_iff in Hb as ->. apply Qeq_alt in Ha. by rewrite Ha.
Qed.



End DistributionSpec.

(** * Properties of the cooking routes *)
Module CookingRouterSpec.
Import Cooking CookingRouter CookingSpec CookingMoreSpec.

Lemma exec_id c s : id (exec c s) = id s.
Proof. destruct c; cbn; by_guards; done. Qed.

Lemma exec_leaves_initialized_for_good c s :
  status s ≠ initialized → status (exec c s) ≠ initialized.
Proof. intros Hs. destruct c; cbn; by_guards; congruence. Qed.

(** The handler of a request for a stored session stores what the method
    leaves. *)
Lemma handle_known r sid c s sessions :
  target r = Some sid →
  callOf r = Some c →
  sessions !! sid = Some s →
  (handle r sessions).2 = <[ sid := exec c s ]> sessions.
Proof.
  intros Ht Hc Hs.
  destruct r; cbn in *; simplify_eq;
    unfold postNext, postPause, postResume, postAbort, postSensor;
    rewrite Hs; cbn [exec]; try done.
  - by destruct (nextStep now s) as [[?|?] ?].
  - by destruct (pause now s) as [[?|?] ?].
  - by destruct (resume now s) as [[?|?] ?].
Qed.

Lemma handle_unknown r sid sessions :
  target r = Some sid →
  sessions !! sid = None →
  handle r sessions = (notFound sid, sessions).
Proof.
  intros Ht Hs.
  destruct r; cbn in *; simplify_eq;
    unfold postNext, postPause, postResume, postAbort, postSensor;
    by rewrite Hs.
Qed.

Lemma postStart_ok req sid now sessions :
  ∃ s,
    postStart req sid now sessions =
      (mkResponse 201
         (StartBody sid in_progress (getCurrentStepInfo s)
            "Cooking session started successfully"),
       <[ sid := s ]> sessions)
    ∧ id s = sid ∧ recipe s = sampleRecipe ∧ status s = in_progress
    ∧ currentStep s = 0 ∧ tracking s.
Proof.
  unfold postStart. rewrite start_ok by done.
  eexists. split; [reflexivity|]. split_and!; try done.
Qed.

Lemma handle_stored r sessions :
  stored sessions → stored (handle r sessions).2.
Proof.
  intros Hst.
  destruct (target r) as [sid|] eqn:Ht.
  - destruct (sessions !! sid) as [s|] eqn:Hs.
    + destruct (callOf r) as [c|] eqn:Hc; [|by destruct r].
      rewrite (handle_known r sid c s) by done.
      apply map_Forall_insert_2; [|done].
      destruct (Hst sid s Hs) as (Hid & Hr & Hi & Hb).
      split_and!.
      * by rewrite exec_id.
      * by rewrite exec_recipe.
      * by apply exec_leaves_initialized_for_good.
      * pose proof (exec_bound c s) as Hbound.
        rewrite Hr in Hbound. cbn in Hbound. by apply Hbound.
    + by rewrite (handle_unknown r sid).
  - destruct r; try done. cbn.
    destruct (postStart_ok req sid now sessions)
      as (s & -> & Hid & Hr & Hs & Hc & _).
    cbn. apply map_Forall_insert_2; [|done].
    split_and!; try done; [congruence | lia].
Qed.

Lemma serve_snoc rs r sessions :
  serve (rs ++ [r]) sessions = (handle r (serve rs sessions)).2.
Proof. unfold serve. by rewrite foldl_app. Qed.

Lemma serve_stored rs sessions : stored sessions → stored (serve rs sessions).
Proof.
  intros Hst. induction rs as [|r rs IH] using rev_ind; [done|].
  rewrite serve_snoc. by apply handle_stored.
Qed.

(** X24: whatever requests the routes have served since the map was
    empty, every session in the map is kept under its own id, cooks the
    three-step sample recipe, has left the state Initialized, and has a
    step index of at most 3. *)
Theorem api_sessions_well_formed rs sid s :
  serve rs ∅ !! sid = Some s →
  id s = sid
  ∧ length (instructions (recipe s)) = 3
  ∧ status s ≠ initialized
  ∧ currentStep s ≤ 3.
Proof.
  intros Hs.
  assert (Hst : stored (serve rs ∅)) by (apply serve_stored; done).
  destruct (Hst sid s Hs) as (Hid & Hr & Hi & Hb).
  split_and!; try done. by rewrite Hr.
Qed.

Lemma api_sessions_well_formed_witness :
  ∃ s,
    serve [PostStart sampleRequest "cooking_1" 10; PostNext "cooking_1" 20;
           PostPause "cooking_1" 30] ∅ !! "cooking_1" = Some s
    ∧ id s = "cooking_1"
    ∧ length (instructions (recipe s)) = 3
    ∧ status s ≠ initialized
    ∧ currentStep s ≤ 3.
Proof.
  eexists. split; [vm_compute; reflexivity|].
  eapply (api_sessions_well_formed
            [PostStart sampleRequest "cooking_1" 10; PostNext "cooking_1" 20;
             PostPause "cooking_1" 30] "cooking_1").
  vm_compute. reflexivity.
Defined.



(** X26: a request that is answered 404 or 409 leaves the map of sessions
    as it was. *)
Theorem refused_request_changes_nothing r sessions :
  statusCode (handle r sessions).1 = 404
  ∨ statusCode (handle r sessions).1 = 409 →
  (handle r sessions).2 = sessions.
Proof.
  destruct (target r) as [sid|] eqn:Ht.
  - destruct (sessions !! sid) as [s|] eqn:Hs.
    + destruct r; cbn in *; simplify_eq;
        unfold postNext, postPause, postResume, postAbort, postSensor;
        rewrite Hs; by_guards; intros [?|?]; try done;
        by apply insert_id.
    + by rewrite (handle_unknown r sid).
  - destruct r; try done. cbn.
    destruct (postStart_ok req sid now sessions) as (s & -> & _). cbn.
    by intros [?|?].
Qed.

Lemma refused_request_changes_nothing_witness :
  statusCode
    (handle (PostResume "cooking_1" 20)
       (serve [PostStart sampleRequest "cooking_1" 10] ∅)).1 = 409
  ∧ (handle (PostResume "cooking_1" 20)
       (serve [PostStart sampleRequest "cooking_1" 10] ∅)).2
    = serve [PostStart sampleRequest "cooking_1" 10] ∅.
Proof.
  split; [vm_compute; reflexivity|].
  apply (refused_request_changes_nothing (PostResume "cooking_1" 20)).
  right. vm_compute. reflexivity.
Defined.

Lemma serve_cons r rs sessions :
  serve (r :: rs) sessions = serve rs (handle r sessions).2.
Proof. done. Qed.

Lemma serve_one_session sid rs : ∀ s sessions,
  Forall (λ r, target r = Some sid) rs →
  sessions !! sid = Some s →
  serve rs sessions = <[ sid := run (omap callOf rs) s ]> sessions.
Proof.
  induction rs as [|r rs IH]; intros s sessions Hall Hs.
  - cbn. by rewrite insert_id.
  - apply Forall_cons in Hall as [Ht Hall].
    destruct (callOf r) as [c|] eqn:Hc; [|by destruct r].
    rewrite serve_cons, (handle_known r sid c s) by done.
    rewrite (IH (exec c s)); [|done|by rewrite lookup_insert_eq].
    cbn. rewrite Hc. cbn. by rewrite insert_insert_eq.
Qed.

Lemma getCurrentStepInfo_ext s s' :
  currentStep s' = currentStep s →
  recipe s' = recipe s →
  getCurrentStepInfo s' = getCurrentStepInfo s.
Proof.
  intros Hc Hr. unfold getCurrentStepInfo, calculateRemainingTime.
  by rewrite Hc, Hr.
Qed.

(** X27: requests that all name one stored session act on it as the
    method calls behind them, one after the other, and every other
    session of the map is found as it was. *)
Theorem requests_on_one_session_are_calls sid rs s sessions :
  Forall (λ r, target r = Some sid) rs →
  sessions !! sid = Some s →
  serve rs sessions !! sid = Some (run (omap callOf rs) s)
  ∧ ∀ other, other ≠ sid → serve rs sessions !! other = sessions !! other.
Proof.
  intros Hall Hs. rewrite (serve_one_session sid rs s) by done. split.
  - by rewrite lookup_insert_eq.
  - intros other Hne. by rewrite lookup_insert_ne.
Qed.

Lemma requests_on_one_session_are_calls_witness :
  ∃ s,
    serve [PostStart sampleRequest "cooking_1" 10;
           PostStart sampleRequest "cooking_2" 11] ∅ !! "cooking_1" = Some s
    ∧ serve [PostNext "cooking_1" 20; PostPause "cooking_1" 30]
        (serve [PostStart sampleRequest "cooking_1" 10;
                PostStart sampleRequest "cooking_2" 11] ∅) !! "cooking_1"
      = Some (run [CallNextStep 20; CallPause 30] s)
    ∧ serve [PostNext "cooking_1" 20; PostPause "cooking_1" 30]
        (serve [PostStart sampleRequest "cooking_1" 10;
                PostStart sampleRequest "cooking_2" 11] ∅) !! "cooking_2"
      = serve [PostStart sampleRequest "cooking_1" 10;
               PostStart sampleRequest "cooking_2" 11] ∅ !! "cooking_2".
Proof.
  assert (HF : Forall (λ r, target r = Some "cooking_1")
                 [PostNext "cooking_1" 20; PostPause "cooking_1" 30])
    by (repeat constructor).
  destruct (serve [PostStart sampleRequest "cooking_1" 10;
                   PostStart sampleRequest "cooking_2" 11] ∅
            !! "cooking_1") as [s|] eqn:Hlook;
    [|vm_compute in Hlook; discriminate].
  exists s. split; [reflexivity|].
  destruct (requests_on_one_session_are_calls "cooking_1" _ s _ HF Hlook)
    as [H1 H2].
  split; [exact H1 | apply H2; discriminate].
Defined.

Lemma calls_of_next sid (times : list Z) :
  omap callOf (PostNext sid <$> times) = CallNextStep <$> times.
Proof. induction times as [|t times IH]; [done|]. cbn. by rewrite IH. Qed.

Lemma run_id cs : ∀ s, id (run cs s) = id s.
Proof.
  induction cs as [|c cs IH]; intros s; [done|].
  cbn. unfold run in IH. by rewrite IH, exec_id.
Qed.

(** X28: a session opened by [POST /start] is, after any number of
    [/next] requests up to three, InProgress at the step of that number,
    whatever the clock shows and whatever else the map holds, and its next
    [/next] request is answered 200; it is the fourth [/next] that answers
    with the state Completed and the summary, with a timing record for
    each of the three steps. *)
Theorem api_session_completes_on_fourth_next
    req sid t0 times tlast sessions :
  length times ≤ 3 →
  let sessions1 := (postStart req sid t0 sessions).2 in
  let sessions2 := serve (PostNext sid <$> times) sessions1 in
  ∃ s,
    sessions2 !! sid = Some s
    ∧ status s = in_progress
    ∧ currentStep s = length times
    ∧ (∀ t, statusCode (postNext sid t sessions2).1 = 200)
    ∧ (length times = 3 →
       ∃ r,
         (postNext sid tlast sessions2).1 =
           mkResponse 200
             (NextBody sid completed (getCurrentStepInfo s) (Completed r))
         ∧ length (summaryStepTimings r) = 3).
Proof.
  intros Hlen.
  destruct (postStart_ok req sid t0 sessions)
    as (s0 & -> & Hid & Hr & Hs & Hc & Htr).
  cbn zeta. cbn [snd].
  rewrite (serve_one_session sid _ s0);
    [| by apply Forall_fmap, Forall_true | by rewrite lookup_insert_eq].
  rewrite calls_of_next.
  destruct (advance_many times s0 Hs Htr) as (Hst' & Hc' & Hr' & Htr');
    [rewrite Hr, Hc; cbn; lia|].
  set (s := run (CallNextStep <$> times) s0) in *.
  exists s. split; [by rewrite lookup_insert_eq|].
  split; [done|]. split; [lia|]. split.
  - intros t. unfold postNext. rewrite lookup_insert_eq.
    unfold nextStep. destruct (decide (status s ≠ in_progress)); [done|].
    by destruct (decide (_ ≤ _)).
  - intros H3.
    destruct (nextStep_completes tlast s Hst')
      as (r & s' & Hcall & Hst2 & Hc2 & Hr2 & Hsum & [Hl2 _]);
      [rewrite Hr', Hr, Hc'; cbn; lia | done |].
    exists r. unfold postNext. rewrite lookup_insert_eq, Hcall. cbn [fst].
    rewrite (getCurrentStepInfo_ext s s') by done.
    rewrite Hst2.
    assert (Hid' : id s' = sid).
    { replace s' with (exec (CallNextStep tlast) s)
        by (cbn; by rewrite Hcall).
      rewrite exec_id. subst s. rewrite run_id. done. }
    rewrite Hid'. split; [done|]. rewrite Hsum, Hl2, Hc2. lia.
Qed.

Lemma api_session_completes_on_fourth_next_witness :
  ∃ s,
    serve (PostNext "cooking_1" <$> [20; 30; 40]%Z)
      (postStart sampleRequest "cooking_1" 10 ∅).2 !! "cooking_1" = Some s
    ∧ status s = in_progress
    ∧ currentStep s = 3
    ∧ ∃ r,
        (postNext "cooking_1" 50
           (serve (PostNext "cooking_1" <$> [20; 30; 40]%Z)
              (postStart sampleRequest "cooking_1" 10 ∅).2)).1
        = mkResponse 200
            (NextBody "cooking_1" completed (getCurrentStepInfo s)
               (Completed r))
        ∧ length (summaryStepTimings r) = 3.
Proof.
  destruct (api_session_completes_on_fourth_next sampleRequest "cooking_1"
              10 [20; 30; 40]%Z 50 ∅) as (s & Hl & Hs & Hc & _ & Hdone);
    [cbn; lia|].
  exists s. split; [exact Hl|]. split; [exact Hs|]. split; [exact Hc|].
  apply Hdone. reflexivity.
Defined.

End CookingRouterSpec.
